(** * NiceHash integration: the rig-name resolver and the poll coordinator

    A shallow embedding of [custom_components/nicehash/common.py].

    Python values are an inductive type, with a str as the sequence of its
    Unicode code points; a raised exception is the [Raise] branch of a result
    type.  The resolver is embedded twice: as a function on values, and as a
    sequence of steps on a store of shared objects, in which the rig is a
    reference and the resolver creates and fills objects of its own.  The two
    awaited client calls of the coordinator are outcomes (a value or an
    exception, after some elapsed time) consumed inside a timeout window. *)

From Stdlib Require Import List String Ascii Bool ZArith NArith Lia.
Import ListNotations.
Open Scope string_scope.

Set Warnings "-register-all".

(** ** Python values *)

Module Py.

(** A str is the sequence of its Unicode code points. *)
Definition pystr : Type := list N.

(** The str of an ASCII literal. *)
Definition u (s : string) : pystr := map N_of_ascii (list_ascii_of_string s).

(** The values a decoded API response is made of.  A dict is kept as an
    association list in insertion order: iterating a dict yields its keys in
    that order, and [dict_lookup] returns the binding of the first matching
    key. *)
Inductive value : Type :=
| VNone
| VBool (b : bool)
| VInt (z : Z)
| VStr (s : pystr)
| VList (xs : list value)
| VDict (kvs : list (string * value)).

(** What can be raised.  [Exc] is an instance of [Exception], with its class
    name and its [str()]; [UpdateFailed] is Home Assistant's exception, with
    its message and the [__cause__] set by [raise ... from err]; [Signal] is
    an instance of [BaseException] that is not an [Exception], such as
    [asyncio.CancelledError] or [KeyboardInterrupt]. *)
Inductive exc : Type :=
| Exc (cls : string) (descr : string)
| UpdateFailed (msg : string) (cause : exc)
| Signal (cls : string) (descr : string).

Inductive result (A : Type) : Type :=
| Ok (a : A)
| Raise (e : exc).
Arguments Ok {A} a.
Arguments Raise {A} e.

Definition bind {A B : Type} (m : result A) (k : A -> result B) : result B :=
  match m with
  | Ok a => k a
  | Raise e => Raise e
  end.

Fixpoint mapM {A B : Type} (f : A -> result B) (l : list A) : result (list B) :=
  match l with
  | [] => Ok []
  | x :: tl =>
      bind (f x) (fun y => bind (mapM f tl) (fun ys => Ok (y :: ys)))
  end.

(** [str(e)] *)
Definition exc_str (e : exc) : string :=
  match e with
  | Exc _ d => d
  | UpdateFailed m _ => m
  | Signal _ d => d
  end.

(** [isinstance(e, Exception)] *)
Definition isinstance_Exception (e : exc) : bool :=
  match e with
  | Signal _ _ => false
  | _ => true
  end.

(** [type(v).__name__] *)
Definition type_name (v : value) : string :=
  match v with
  | VNone => "NoneType"
  | VBool _ => "bool"
  | VInt _ => "int"
  | VStr _ => "str"
  | VList _ => "list"
  | VDict _ => "dict"
  end.

Definition AttributeError (v : value) (attr : string) : exc :=
  Exc "AttributeError"
      ("'" ++ type_name v ++ "' object has no attribute '" ++ attr ++ "'").

Definition TypeError_not_iterable (v : value) : exc :=
  Exc "TypeError" ("'" ++ type_name v ++ "' object is not iterable").

(** Truth value of an object, as [not x] and [x or y] test it. *)
Definition truthy (v : value) : bool :=
  match v with
  | VNone => false
  | VBool b => b
  | VInt z => negb (Z.eqb z 0)
  | VStr s => match s with [] => false | _ => true end
  | VList xs => match xs with [] => false | _ => true end
  | VDict kvs => match kvs with [] => false | _ => true end
  end.

(** [a or b] *)
Definition py_or (a b : value) : value := if truthy a then a else b.

Definition isinstance_dict (v : value) : bool :=
  match v with VDict _ => true | _ => false end.

Definition isinstance_str (v : value) : bool :=
  match v with VStr _ => true | _ => false end.

Fixpoint dict_lookup (kvs : list (string * value)) (k : string) : option value :=
  match kvs with
  | [] => None
  | (k', v) :: tl => if String.eqb k' k then Some v else dict_lookup tl k
  end.

(** [d[k] = v] on a dict: replaces the binding of [k] or appends one. *)
Fixpoint dict_set (kvs : list (string * value)) (k : string) (v : value)
  : list (string * value) :=
  match kvs with
  | [] => [(k, v)]
  | (k', v') :: tl =>
      if String.eqb k' k then (k', v) :: tl else (k', v') :: dict_set tl k v
  end.

(** [o.get(k, default)]: only a dict has the method. *)
Definition get_default (o : value) (k : string) (default : value) : result value :=
  match o with
  | VDict kvs =>
      Ok (match dict_lookup kvs k with Some v => v | None => default end)
  | _ => Raise (AttributeError o "get")
  end.

(** [o.get(k)] *)
Definition get (o : value) (k : string) : result value := get_default o k VNone.

(** The one-character strings a str yields when iterated. *)
Definition chars (s : pystr) : list value := map (fun c => VStr [c]) s.

(** The items a [for] loop draws from [o]: the elements of a list, the keys
    of a dict, the characters of a str; the other types are not iterable. *)
Definition iter (o : value) : result (list value) :=
  match o with
  | VList xs => Ok xs
  | VDict kvs => Ok (map (fun kv => VStr (u (fst kv))) kvs)
  | VStr s => Ok (chars s)
  | _ => Raise (TypeError_not_iterable o)
  end.

(** *** str methods *)

(** [c.isspace()]: the code points Python treats as whitespace, which are
    the ones [str.strip()] removes. *)
Definition isspace (c : N) : bool :=
  ((9 <=? c) && (c <=? 13)
   || (28 <=? c) && (c <=? 32)
   || (c =? 133) || (c =? 160) || (c =? 5760)
   || (8192 <=? c) && (c <=? 8202)
   || (c =? 8232) || (c =? 8233) || (c =? 8239) || (c =? 8287)
   || (c =? 12288))%N.

(** Upper case of one code point, on the ASCII letters.  The resolver only
    compares an upper-cased name with the ASCII placeholder tokens, and no
    code point outside ASCII has an upper-case form that occurs inside one of
    them, so the comparison comes out as with the full Unicode mapping. *)
Definition upper_char (c : N) : N :=
  if ((97 <=? c) && (c <=? 122))%N then (c - 32)%N else c.

(** [s.upper()] *)
Definition upper (s : pystr) : pystr := map upper_char s.

Fixpoint str_eqb (a b : pystr) : bool :=
  match a, b with
  | [], [] => true
  | x :: a', y :: b' => N.eqb x y && str_eqb a' b'
  | _, _ => false
  end.

Fixpoint lstrip (s : pystr) : pystr :=
  match s with
  | [] => []
  | c :: tl => if isspace c then lstrip tl else s
  end.

Fixpoint rstrip (s : pystr) : pystr :=
  match s with
  | [] => []
  | c :: tl =>
      match rstrip tl with
      | [] => if isspace c then [] else [c]
      | r => c :: r
      end
  end.

(** [s.strip()] *)
Definition strip (s : pystr) : pystr := rstrip (lstrip s).

End Py.

Import Py.

Declare Scope py_scope.
Notation "x <- m ;; k" := (bind m (fun x => k))
  (at level 61, m at next level, right associativity) : py_scope.
Open Scope py_scope.

(** ** The name resolver *)

Definition PLACEHOLDER_RIG_NAMES : list pystr :=
  [u "__DEFAULT__"; u "- UNMANAGED -"; u "UNMANAGED"].

(** [{token.upper() for token in PLACEHOLDER_RIG_NAMES}] *)
Definition placeholder_tokens : list pystr := map upper PLACEHOLDER_RIG_NAMES.

(** [x in tokens] *)
Definition str_in (x : pystr) (tokens : list pystr) : bool :=
  existsb (str_eqb x) tokens.

(** The inner function [_normalize]: a str, or None. *)
Definition _normalize (v : value) : value :=
  match v with
  | VStr s =>
      let name := strip s in
      if negb (truthy (VStr name)) then VNone
      else if str_in (upper name) placeholder_tokens then VNone
      else VStr name
  | _ => VNone
  end.

Definition keys : list string :=
  ["name"; "displayName"; "rigDisplayName"; "label"; "worker"; "rigName";
   "groupName"].

(** The final loop: the first candidate whose normal form is truthy. *)
Fixpoint first_normalized (candidates : list value) : option value :=
  match candidates with
  | [] => None
  | candidate :: tl =>
      let normalized := _normalize candidate in
      if truthy normalized then Some normalized else first_normalized tl
  end.

(** The candidate list, built in full before any candidate is looked at. *)
Definition build_candidates (rig : value) : result (list value) :=
  metadata0 <- get rig "metadata" ;;
  let metadata := py_or metadata0 (VDict []) in
  group0 <- get rig "group" ;;
  let group := py_or group0 (VDict []) in
  v40 <- get rig "v4" ;;
  let v4 := py_or v40 (VDict []) in
  mmv0 <- get v4 "mmv" ;;
  let mmv := py_or mmv0 (VDict []) in
  c_rig <- mapM (get rig) keys ;;
  c_meta <- mapM (get metadata) keys ;;
  c_group <- mapM (get group) (filter (fun _ => isinstance_dict group) keys) ;;
  c_gname <- get rig "groupName" ;;
  c_mmv <- get mmv "workerName" ;;
  osv0 <- get v4 "osv" ;;
  os_values <- iter (py_or osv0 (VList [])) ;;
  c_osv <- mapM (fun os_value => get os_value "value") os_values ;;
  devs0 <- get v4 "devices" ;;
  v4_devices <- iter (py_or devs0 (VList [])) ;;
  c_dsv <- mapM (fun device =>
                   dsv0 <- get device "dsv" ;;
                   let dsv := py_or dsv0 (VDict []) in
                   get dsv "name") v4_devices ;;
  devs1 <- get_default rig "devices" (VList []) ;;
  devices <- iter devs1 ;;
  c_dev <- mapM (fun device => get device "name") devices ;;
  Ok (c_rig ++ c_meta ++ c_group ++ [c_gname] ++ [c_mmv]
        ++ c_osv ++ c_dsv ++ c_dev)%list.

Definition resolve_rig_name (rig : value) : result value :=
  if negb (truthy rig) then Ok VNone
  else
    candidates <- build_candidates rig ;;
    match first_normalized candidates with
    | Some normalized => Ok normalized
    | None => get rig "rigId"
    end.

(** ** The probe order in the words of the specification

    Safe navigation: a missing key, or a key looked up in something that is
    not a mapping, reads as null; something that is not a sequence has no
    entries. *)

Definition field (o : value) (k : string) : value :=
  match o with
  | VDict kvs => match dict_lookup kvs k with Some v => v | None => VNone end
  | _ => VNone
  end.

Definition entries (o : value) : list value :=
  match o with
  | VList xs => xs
  | _ => []
  end.

Definition spec_probe_order (rig : value) : list value :=
  (map (field rig) keys
  ++ map (field (field rig "metadata")) keys
  ++ (if isinstance_dict (field rig "group")
      then map (field (field rig "group")) keys else [])
  ++ [field rig "groupName"]
  ++ [field (field (field rig "v4") "mmv") "workerName"]
  ++ map (fun e => field e "value") (entries (field (field rig "v4") "osv"))
  ++ map (fun e => field (field e "dsv") "name")
         (entries (field (field rig "v4") "devices"))
  ++ map (fun e => field e "name") (entries (field rig "devices")))%list.

(** ** The records on which candidate collection does not raise *)

(** A mapping, or a falsy value that [or {}] replaces by an empty mapping. *)
Definition opt_dict (v : value) : bool := negb (truthy v) || isinstance_dict v.

(** A list whose entries all satisfy [p], or a falsy value that [or []]
    replaces by an empty list. *)
Definition opt_list_of (p : value -> bool) (v : value) : bool :=
  negb (truthy v) || match v with VList xs => forallb p xs | _ => false end.

Definition device_ok (d : value) : bool :=
  isinstance_dict d && opt_dict (field d "dsv").

(** The top-level [devices] has no [or []]: it is absent, a list of mappings,
    or an empty iterable. *)
Definition top_devices_ok (rig : value) : bool :=
  match rig with
  | VDict kvs =>
      match dict_lookup kvs "devices" with
      | None => true
      | Some (VList xs) => forallb isinstance_dict xs
      | Some (VDict []) => true
      | Some (VStr []) => true
      | Some _ => false
      end
  | _ => false
  end.

Definition well_shaped (rig : value) : bool :=
  isinstance_dict rig
  && opt_dict (field rig "metadata")
  && opt_dict (field rig "v4")
  && opt_dict (field (field rig "v4") "mmv")
  && opt_list_of isinstance_dict (field (field rig "v4") "osv")
  && opt_list_of device_ok (field (field rig "v4") "devices")
  && top_devices_ok rig.

(** ** Sample records *)

Definition rig_precedence : value :=
  VDict [("name", VStr (u "  GPU-Rig-1  "));
         ("metadata", VDict [("name", VStr (u "fallback"))])].

Definition rig_placeholder : value :=
  VDict [("name", VStr (u "UNMANAGED"));
         ("metadata", VDict [("displayName", VStr (u "Worker7"))])].

Definition rig_deep : value :=
  VDict [("v4", VDict [("devices",
            VList [VDict [("dsv", VDict [("name", VStr (u "RTX3080-A"))])]])])].

Definition rig_only_id : value := VDict [("rigId", VStr (u "abc123"))].

Definition rig_null_devices : value :=
  VDict [("rigId", VStr (u "abc123")); ("devices", VNone)].

Definition rig_str_metadata : value :=
  VDict [("name", VStr (u "Rig-1")); ("metadata", VStr (u "n/a"))].

(** The candidate list of the code under safe navigation: it differs from
    [spec_probe_order] only in how a falsy [group] is treated, which [or {}]
    turns into an empty mapping that is then probed. *)
Definition probed_candidates (rig : value) : list value :=
  let group := py_or (field rig "group") (VDict []) in
  (map (field rig) keys
  ++ map (field (field rig "metadata")) keys
  ++ (if isinstance_dict group then map (field group) keys else [])
  ++ [field rig "groupName"]
  ++ [field (field (field rig "v4") "mmv") "workerName"]
  ++ map (fun e => field e "value") (entries (field (field rig "v4") "osv"))
  ++ map (fun e => field (field e "dsv") "name")
         (entries (field (field rig "v4") "devices"))
  ++ map (fun e => field e "name") (entries (field rig "devices")))%list.

(** What the resolver returns when the candidates are [cs]. *)
Definition first_or_rigId (rig : value) (cs : list value) : value :=
  match first_normalized cs with
  | Some normalized => normalized
  | None => field rig "rigId"
  end.

(** A candidate the final loop passes over, in the words of the
    specification: not a string, empty once trimmed, or a placeholder
    whatever its case. *)
Definition disqualified (c : value) : Prop :=
  isinstance_str c = false
  \/ exists s, c = VStr s
       /\ (strip s = [] \/ str_in (upper (strip s)) (map upper PLACEHOLDER_RIG_NAMES) = true).

Definition rig_raw_id : value :=
  VDict [("name", VStr (u "  ")); ("label", VStr (u "unmanaged")); ("rigId", VStr (u " r1 "))].

Definition all_space (s : pystr) : bool := forallb isspace s.

Definition first_char (s : pystr) : option N :=
  match s with
  | [] => None
  | c :: _ => Some c
  end.

Fixpoint last_char (s : pystr) : option N :=
  match s with
  | [] => None
  | [c] => Some c
  | _ :: tl => last_char tl
  end.

(** Neither end of [s] is a whitespace character. *)
Definition trimmed (s : pystr) : Prop :=
  (forall c, first_char s = Some c -> isspace c = false)
  /\ (forall c, last_char s = Some c -> isspace c = false).

(** ** Trimming and letter case in the words of the specification *)

(** The code points for which [str.isspace()] holds. *)
Definition python_whitespace : list N :=
  [9; 10; 11; 12; 13; 28; 29; 30; 31; 32; 133; 160; 5760;
   8192; 8193; 8194; 8195; 8196; 8197; 8198; 8199; 8200; 8201; 8202;
   8232; 8233; 8239; 8287; 12288]%N.

(** Lower case of one code point, on the ASCII letters. *)
Definition fold_case (c : N) : N :=
  if ((65 <=? c) && (c <=? 90))%N then (c + 32)%N else c.

(** Equality of two strings up to the case of their letters. *)
Definition eq_ignore_case (a b : pystr) : bool :=
  str_eqb (map fold_case a) (map fold_case b).

(** The name is one of the placeholder sentinels, in any letter case. *)
Definition is_placeholder (name : pystr) : bool :=
  existsb (eq_ignore_case name) PLACEHOLDER_RIG_NAMES.

(** A record whose names come with Unicode blanks and in lower case:
    ["  unmanaged" + U+00A0] and [U+2003 + "Worker7" + newline]. *)
Definition rig_unicode_blanks : value :=
  VDict [("name", VStr ([32; 32] ++ u "unmanaged" ++ [160])%N%list);
         ("metadata",
          VDict [("displayName", VStr ([8195] ++ u "Worker7" ++ [10])%N%list)])].

(** The two exception classes that a failed lookup or loop of the resolver
    raises. *)
Definition lookup_error (e : exc) : bool :=
  match e with
  | Exc cls _ => String.eqb cls "AttributeError" || String.eqb cls "TypeError"
  | UpdateFailed _ _ => false
  | Signal _ _ => false
  end.

(** The keys of the rig that the resolver passes to [rig.get]. *)
Definition probed_keys : list string :=
  (keys ++ ["metadata"; "group"; "v4"; "devices"; "rigId"])%list.

(** The probe order without the second look at [rig.groupName]. *)
Definition spec_probe_order_once (rig : value) : list value :=
  (map (field rig) keys
  ++ map (field (field rig "metadata")) keys
  ++ (if isinstance_dict (field rig "group")
      then map (field (field rig "group")) keys else [])
  ++ [field (field (field rig "v4") "mmv") "workerName"]
  ++ map (fun e => field e "value") (entries (field (field rig "v4") "osv"))
  ++ map (fun e => field (field e "dsv") "name")
         (entries (field (field rig "v4") "devices"))
  ++ map (fun e => field e "name") (entries (field rig "devices")))%list.

(** ** The poll coordinator *)

Module Coordinator.

(** Modelled from the spec: [const.py] is not among the sources; the snapshot
    holds the two results under the stable keys [rigs] and [account]. *)
Definition RIGS_OBJ : string := "rigs".
Definition ACCOUNT_OBJ : string := "account".

(** An awaited client call: it ends after some time with a value or an
    exception, or it never ends. *)
Inductive call (A : Type) : Type :=
| Completes (elapsed : N) (outcome : result A)
| Hangs.
Arguments Completes {A} elapsed outcome.
Arguments Hangs {A}.

(** The client, [NiceHashPrivateAPI]: the two operations the coordinator
    awaits. *)
Record NiceHashPrivateAPI : Type := {
  get_rigs_data : call value;
  get_account_data : string -> call value
}.

(** What a refresh does that can be observed from outside, in order. *)
Inductive event : Type :=
| CallRigs
| LogDebug (rigs : value)
| CallAccount (fiat : string).

Record world : Type := {
  now : N;
  trace : list event
}.

(** [timedelta] *)
Record timedelta : Type := { total_seconds : Z }.

Definition timedelta_minutes (minutes : Z) : timedelta :=
  {| total_seconds := 60 * minutes |}.

(** The coordinator object: the attributes set by [__init__], and [data] and
    [last_update_success], which the base class keeps. *)
Record coordinator : Type := {
  update_interval : timedelta;
  _api : NiceHashPrivateAPI;
  _fiat : string;
  data : option value;
  last_update_success : bool
}.

(** [__init__(self, hass, api, update_interval, fiat="USD")]; an omitted
    [fiat] is [None] here. *)
Definition __init__ (api : NiceHashPrivateAPI) (interval : Z)
  (fiat : option string) : coordinator :=
  {| update_interval := timedelta_minutes interval;
     _api := api;
     _fiat := match fiat with Some f => f | None => "USD" end;
     data := None;
     last_update_success := true |}.

(** Computations that read the clock, extend the trace and may raise. *)
Definition M (A : Type) : Type := world -> result A * world.

Definition ret {A : Type} (a : A) : M A := fun w => (Ok a, w).

Definition raise {A : Type} (e : exc) : M A := fun w => (Raise e, w).

Definition mbind {A B : Type} (m : M A) (k : A -> M B) : M B :=
  fun w =>
    match m w with
    | (Ok a, w') => k a w'
    | (Raise e, w') => (Raise e, w')
    end.

(** [try: body except Exception as err: handler(err)]: what is raised
    outside [Exception] passes through. *)
Definition try_except {A : Type} (body : M A) (handler : exc -> M A) : M A :=
  fun w =>
    match body w with
    | (Ok a, w') => (Ok a, w')
    | (Raise err, w') =>
        if isinstance_Exception err then handler err w' else (Raise err, w')
    end.

Definition emit (e : event) : M unit :=
  fun w => (Ok tt, {| now := now w; trace := trace w ++ [e] |}).

Definition clock : M N := fun w => (Ok (now w), w).

(** [asyncio.TimeoutError()], whose [str()] is empty. *)
Definition TimeoutError : exc := Exc "TimeoutError" "".

(** [await c] inside [async with async_timeout.timeout(...)]: the call ends
    as it would when it ends before the deadline; otherwise it is cancelled
    at the deadline and the block raises TimeoutError. *)
Definition await_until {A : Type} (deadline : N) (c : call A) : M A :=
  fun w =>
    match c with
    | Completes elapsed outcome =>
        if (now w + elapsed <? deadline)%N
        then (outcome, {| now := now w + elapsed; trace := trace w |})
        else (Raise TimeoutError, {| now := N.max (now w) deadline; trace := trace w |})
    | Hangs =>
        (Raise TimeoutError, {| now := N.max (now w) deadline; trace := trace w |})
    end.

Local Notation "x <- m ;; k" := (mbind m (fun x => k))
  (at level 61, m at next level, right associativity).

(** [{RIGS_OBJ: rigs, ACCOUNT_OBJ: account}] *)
Definition snapshot (rigs account : value) : value :=
  VDict (dict_set (dict_set [] RIGS_OBJ rigs) ACCOUNT_OBJ account).

Definition _async_update_data (self : coordinator) : M value :=
  try_except
    (start <- clock ;;
     let deadline := (start + 10)%N in
     _ <- emit CallRigs ;;
     rigs <- await_until deadline (get_rigs_data (_api self)) ;;
     _ <- emit (LogDebug rigs) ;;
     _ <- emit (CallAccount (_fiat self)) ;;
     account <- await_until deadline (get_account_data (_api self) (_fiat self)) ;;
     ret (snapshot rigs account))
    (fun err =>
       raise (UpdateFailed ("Error communicating with API: " ++ exc_str err) err)).

(** Modelled from the spec: the base class [DataUpdateCoordinator] belongs to
    Home Assistant and is not among the sources.  A refresh that succeeds
    stores the new snapshot as the last known good one; a refresh that fails
    leaves the stored snapshot as it was and records the failure. *)
Definition async_refresh (self : coordinator) (w : world)
  : coordinator * option exc * world :=
  match _async_update_data self w with
  | (Ok d, w') =>
      ({| update_interval := update_interval self;
          _api := _api self;
          _fiat := _fiat self;
          data := Some d;
          last_update_success := true |}, None, w')
  | (Raise e, w') =>
      ({| update_interval := update_interval self;
          _api := _api self;
          _fiat := _fiat self;
          data := data self;
          last_update_success := false |}, Some e, w')
  end.

(** The error behind a failed refresh: what the rigs call raised, else what
    the account call raised, else the timeout. *)
Inductive cause_of (self : coordinator) : exc -> Prop :=
| cause_rigs t e :
    get_rigs_data (_api self) = Completes t (Raise e) -> cause_of self e
| cause_account t e :
    get_account_data (_api self) (_fiat self) = Completes t (Raise e) ->
    cause_of self e
| cause_timeout : cause_of self TimeoutError.

(** What leaves the refresh when [err] is raised inside its [try] block. *)
Definition reraised (err : exc) : exc :=
  if isinstance_Exception err
  then UpdateFailed ("Error communicating with API: " ++ exc_str err) err
  else err.

(** The refresh runs into the deadline: a call hangs, or the time the calls
    take reaches the 10 units of the window. *)
Definition times_out (self : coordinator) : bool :=
  match get_rigs_data (_api self) with
  | Hangs => true
  | Completes t1 r =>
      if (t1 <? 10)%N then
        match r with
        | Raise _ => false
        | Ok _ =>
            match get_account_data (_api self) (_fiat self) with
            | Hangs => true
            | Completes t2 _ => negb (t1 + t2 <? 10)%N
            end
        end
      else true
  end.

(** Sample clients. *)
Definition sample_rigs : value := VList [rig_only_id].
Definition sample_account : value := VDict [("totalBalance", VStr (u "0.5"))].

Definition api_ok : NiceHashPrivateAPI :=
  {| get_rigs_data := Completes 3 (Ok sample_rigs);
     get_account_data := fun _ => Completes 4 (Ok sample_account) |}.

Definition api_rigs_down : NiceHashPrivateAPI :=
  {| get_rigs_data := Completes 1 (Raise (Exc "ClientError" "connection refused"));
     get_account_data := fun _ => Completes 1 (Ok sample_account) |}.

Definition api_slow : NiceHashPrivateAPI :=
  {| get_rigs_data := Completes 6 (Ok sample_rigs);
     get_account_data := fun _ => Completes 6 (Ok sample_account) |}.

(** A client whose rigs call is cancelled while it is awaited. *)
Definition CancelledError : exc := Signal "CancelledError" "".

Definition api_cancelled : NiceHashPrivateAPI :=
  {| get_rigs_data := Completes 1 (Raise CancelledError);
     get_account_data := fun _ => Completes 1 (Ok sample_account) |}.

(** A client whose account call fails after the rigs call has returned. *)
Definition api_account_down : NiceHashPrivateAPI :=
  {| get_rigs_data := Completes 2 (Ok sample_rigs);
     get_account_data := fun _ => Completes 3 (Raise (Exc "ClientError" "HTTP 500")) |}.


Definition w0 : world := {| now := 100; trace := [] |}.

End Coordinator.

(** ** The resolver on shared objects

    The rig that a caller passes is a reference to a dict that other code
    holds too, and the resolver builds lists and dicts of its own.  Here the
    objects live in a store, a value is an immediate or a reference into the
    store, and every operation of the resolver is a step on the store. *)

Module Heap.

Definition addr : Type := nat.

Inductive hval : Type :=
| HNone
| HBool (b : bool)
| HInt (z : Z)
| HStr (s : pystr)
| HRef (a : addr).

(** The mutable objects. *)
Inductive obj : Type :=
| OList (items : list hval)
| ODict (kvs : list (string * hval)).

(** The store: the object at address [a] is the [a]-th one; a new object
    gets the next address. *)
Definition heap : Type := list obj.

Definition M (A : Type) : Type := heap -> result A * heap.

Definition ret {A : Type} (a : A) : M A := fun h => (Ok a, h).

Definition raise {A : Type} (e : exc) : M A := fun h => (Raise e, h).

Definition mbind {A B : Type} (m : M A) (k : A -> M B) : M B :=
  fun h =>
    match m h with
    | (Ok a, h') => k a h'
    | (Raise e, h') => (Raise e, h')
    end.

Local Notation "x <- m ;; k" := (mbind m (fun x => k))
  (at level 61, m at next level, right associativity).

(** A new object. *)
Definition alloc (o : obj) : M hval :=
  fun h => (Ok (HRef (List.length h)), (h ++ [o])%list).

(** The object behind a reference. *)
Definition load (a : addr) : M obj :=
  fun h =>
    match nth_error h a with
    | Some o => (Ok o, h)
    | None => (Raise (Exc "SystemError" "no object at this address"), h)
    end.

Fixpoint update (h : heap) (a : addr) (o : obj) : heap :=
  match h, a with
  | [], _ => []
  | _ :: tl, O => o :: tl
  | x :: tl, S a' => x :: update tl a' o
  end.

(** The object behind a reference is replaced. *)
Definition store (a : addr) (o : obj) : M unit :=
  fun h => (Ok tt, update h a o).

Definition attribute_error (type_name attr : string) : exc :=
  Exc "AttributeError"
      ("'" ++ type_name ++ "' object has no attribute '" ++ attr ++ "'").

Definition not_iterable (type_name : string) : exc :=
  Exc "TypeError" ("'" ++ type_name ++ "' object is not iterable").

(** [type(v).__name__] *)
Definition type_name (v : hval) : M string :=
  match v with
  | HNone => ret "NoneType"
  | HBool _ => ret "bool"
  | HInt _ => ret "int"
  | HStr _ => ret "str"
  | HRef a =>
      o <- load a ;;
      ret (match o with OList _ => "list" | ODict _ => "dict" end)
  end.

Definition truthy (v : hval) : M bool :=
  match v with
  | HNone => ret false
  | HBool b => ret b
  | HInt z => ret (negb (Z.eqb z 0))
  | HStr s => ret (match s with [] => false | _ => true end)
  | HRef a =>
      o <- load a ;;
      ret (match o with
           | OList [] => false
           | ODict [] => false
           | _ => true
           end)
  end.

(** [a or b]: the right operand is evaluated only when the left one is
    falsy. *)
Definition py_or (a : hval) (b : M hval) : M hval :=
  t <- truthy a ;;
  if t then ret a else b.

Definition isinstance_dict (v : hval) : M bool :=
  match v with
  | HRef a => o <- load a ;; ret (match o with ODict _ => true | _ => false end)
  | _ => ret false
  end.

Fixpoint dict_lookup (kvs : list (string * hval)) (k : string) : option hval :=
  match kvs with
  | [] => None
  | (k', v) :: tl => if String.eqb k' k then Some v else dict_lookup tl k
  end.

(** [o.get(k, default)] *)
Definition get_default (o : hval) (k : string) (default : hval) : M hval :=
  match o with
  | HRef a =>
      ob <- load a ;;
      match ob with
      | ODict kvs =>
          ret (match dict_lookup kvs k with Some v => v | None => default end)
      | OList _ => raise (attribute_error "list" "get")
      end
  | _ => tn <- type_name o ;; raise (attribute_error tn "get")
  end.

(** [o.get(k)] *)
Definition get (o : hval) (k : string) : M hval := get_default o k HNone.

(** The items a [for] loop draws from [o]. *)
Definition iter (o : hval) : M (list hval) :=
  match o with
  | HRef a =>
      ob <- load a ;;
      ret (match ob with
           | OList items => items
           | ODict kvs => map (fun kv => HStr (u (fst kv))) kvs
           end)
  | HStr s => ret (map (fun c => HStr [c]) s)
  | _ => tn <- type_name o ;; raise (not_iterable tn)
  end.

(** [l.append(x)]: the list object itself is changed. *)
Definition list_append (l : hval) (x : hval) : M unit :=
  match l with
  | HRef a =>
      ob <- load a ;;
      match ob with
      | OList items => store a (OList (items ++ [x]))
      | ODict _ => raise (attribute_error "dict" "append")
      end
  | _ => tn <- type_name l ;; raise (attribute_error tn "append")
  end.

Fixpoint mapM {A B : Type} (f : A -> M B) (l : list A) : M (list B) :=
  match l with
  | [] => ret []
  | x :: tl => y <- f x ;; ys <- mapM f tl ;; ret (y :: ys)
  end.

(** [for x in items: body(x)] *)
Fixpoint for_each {A : Type} (items : list A) (body : A -> M unit) : M unit :=
  match items with
  | [] => ret tt
  | x :: tl => _ <- body x ;; for_each tl body
  end.

(** The inner function [_normalize]; it touches no object. *)
Definition _normalize (v : hval) : hval :=
  match v with
  | HStr s =>
      let name := strip s in
      match name with
      | [] => HNone
      | _ => if str_in (upper name) placeholder_tokens then HNone else HStr name
      end
  | _ => HNone
  end.

(** The truth value of what [_normalize] returns: None, or a string. *)
Definition normalized_truthy (v : hval) : bool :=
  match v with
  | HStr (_ :: _) => true
  | _ => false
  end.

Fixpoint first_normalized (candidates : list hval) : option hval :=
  match candidates with
  | [] => None
  | candidate :: tl =>
      let normalized := _normalize candidate in
      if normalized_truthy normalized then Some normalized
      else first_normalized tl
  end.

(** Lines 84 to 104: the list [candidates] is created and filled; what is
    returned is the reference to it. *)
Definition build_candidates (rig : hval) : M hval :=
  metadata0 <- get rig "metadata" ;;
  metadata <- py_or metadata0 (alloc (ODict [])) ;;
  group0 <- get rig "group" ;;
  group <- py_or group0 (alloc (ODict [])) ;;
  v40 <- get rig "v4" ;;
  v4 <- py_or v40 (alloc (ODict [])) ;;
  mmv0 <- get v4 "mmv" ;;
  mmv <- py_or mmv0 (alloc (ODict [])) ;;
  c_rig <- mapM (get rig) keys ;;
  candidates <- alloc (OList c_rig) ;;
  _ <- for_each keys (fun key =>
         x <- get metadata key ;; list_append candidates x) ;;
  _ <- for_each keys (fun key =>
         is_dict <- isinstance_dict group ;;
         if is_dict
         then x <- get group key ;; list_append candidates x
         else ret tt) ;;
  x <- get rig "groupName" ;;
  _ <- list_append candidates x ;;
  x <- get mmv "workerName" ;;
  _ <- list_append candidates x ;;
  osv0 <- get v4 "osv" ;;
  osv <- py_or osv0 (alloc (OList [])) ;;
  os_values <- iter osv ;;
  _ <- for_each os_values (fun os_value =>
         x <- get os_value "value" ;; list_append candidates x) ;;
  devs0 <- get v4 "devices" ;;
  devs <- py_or devs0 (alloc (OList [])) ;;
  v4_devices <- iter devs ;;
  _ <- for_each v4_devices (fun device =>
         dsv0 <- get device "dsv" ;;
         dsv <- py_or dsv0 (alloc (ODict [])) ;;
         x <- get dsv "name" ;;
         list_append candidates x) ;;
  no_devices <- alloc (OList []) ;;
  devs1 <- get_default rig "devices" no_devices ;;
  devices <- iter devs1 ;;
  _ <- for_each devices (fun device =>
         x <- get device "name" ;; list_append candidates x) ;;
  ret candidates.

Definition resolve_rig_name (rig : hval) : M hval :=
  t <- truthy rig ;;
  if negb t then ret HNone
  else
    candidates <- build_candidates rig ;;
    all_candidates <- iter candidates ;;
    match first_normalized all_candidates with
    | Some normalized => ret normalized
    | None => get rig "rigId"
    end.

(** Every object of [hb] is still the same object in [h]. *)
Definition extends (hb h : heap) : Prop :=
  forall a o, nth_error hb a = Some o -> nth_error h a = Some o.

(** The store holds the value [pv] at [v]: the same immediates, and behind
    each reference a list or dict with the same entries. *)
Inductive represents (h : heap) : value -> hval -> Prop :=
| rep_None : represents h VNone HNone
| rep_Bool b : represents h (VBool b) (HBool b)
| rep_Int z : represents h (VInt z) (HInt z)
| rep_Str s : represents h (VStr s) (HStr s)
| rep_List a items xs :
    nth_error h a = Some (OList items) ->
    Forall2 (represents h) xs items ->
    represents h (VList xs) (HRef a)
| rep_Dict a hkvs kvs :
    nth_error h a = Some (ODict hkvs) ->
    Forall2 (fun kv hkv => fst kv = fst hkv /\ represents h (snd kv) (snd hkv))
            kvs hkvs ->
    represents h (VDict kvs) (HRef a).

(** The value stored under [rigId] in the rig. *)
Definition stored_rigId (h : heap) (rig : hval) : hval :=
  match rig with
  | HRef a =>
      match nth_error h a with
      | Some (ODict kvs) =>
          match dict_lookup kvs "rigId" with Some v => v | None => HNone end
      | _ => HNone
      end
  | _ => HNone
  end.

(** The outcome of the resolver on values, as an outcome on the store. *)
Definition reflect (h : heap) (rig : hval) (r : result value) : result hval :=
  match r with
  | Raise e => Raise e
  | Ok VNone => Ok HNone
  | Ok (VBool b) => Ok (HBool b)
  | Ok (VInt z) => Ok (HInt z)
  | Ok (VStr s) => Ok (HStr s)
  | Ok (VList _) => Ok (stored_rigId h rig)
  | Ok (VDict _) => Ok (stored_rigId h rig)
  end.

(** A candidate as the filter sees it: only whether it is a string, and
    which, matters. *)
Definition same_str (pv : value) (v : hval) : Prop :=
  match pv with
  | VStr s => v = HStr s
  | _ => forall s, v <> HStr s
  end.

(** On a store whose object after [h1] is the list [candidates], the
    computation [m] reads what the pure [p] reads, and leaves [h1] and the
    list as they are. *)
Definition reads (h1 : heap) (m : M hval) (p : result value) : Prop :=
  forall items rest, exists rest',
    match p with
    | Ok pr =>
        exists r, m (h1 ++ OList items :: rest)%list
                  = (Ok r, (h1 ++ OList items :: rest')%list)
                  /\ same_str pr r
    | Raise e =>
        m (h1 ++ OList items :: rest)%list
        = (Raise e, (h1 ++ OList items :: rest')%list)
    end.

(** The loop body [body] appends to [candidates] what the pure [p] reads. *)
Definition appends (h1 : heap) (body : M unit) (p : result value) : Prop :=
  forall items rest, exists rest',
    match p with
    | Ok pr =>
        exists r, body (h1 ++ OList items :: rest)%list
                  = (Ok tt, (h1 ++ OList (items ++ [r]) :: rest')%list)
                  /\ same_str pr r
    | Raise e =>
        body (h1 ++ OList items :: rest)%list
        = (Raise e, (h1 ++ OList items :: rest')%list)
    end.

(** The store after [candidates] has been collected, against the pure list:
    the objects of [h] are as they were, one of the new objects is the list,
    and its items are the candidates. *)
Definition collects (h : heap) (out : result hval * heap)
  (p : result (list value)) : Prop :=
  match p with
  | Ok cs =>
      exists ex items rest,
        out = (Ok (HRef (List.length (h ++ ex))),
               ((h ++ ex) ++ OList items :: rest)%list)
        /\ Forall2 same_str cs items
  | Raise e => exists ex, out = (Raise e, (h ++ ex)%list)
  end.

(** A store with a rig in it: the rig dict at address 1 refers to the
    metadata dict at address 0. *)
Definition sample_heap : heap :=
  [ODict [("displayName", HStr (u "Worker7"))];
   ODict [("name", HStr (u "UNMANAGED")); ("metadata", HRef 0);
          ("rigId", HStr (u "abc123"))]].

(** The value that [sample_heap] holds at address 1. *)
Definition sample_heap_rig : value :=
  VDict [("name", VStr (u "UNMANAGED"));
         ("metadata", VDict [("displayName", VStr (u "Worker7"))]);
         ("rigId", VStr (u "abc123"))].

End Heap.

(** Induction on values through their lists and dicts. *)
Section ValueInd.

Variable P : value -> Prop.
Hypothesis HNone : P VNone.
Hypothesis HBool : forall b, P (VBool b).
Hypothesis HInt : forall z, P (VInt z).
Hypothesis HStr : forall s, P (VStr s).
Hypothesis HList : forall xs, Forall P xs -> P (VList xs).
Hypothesis HDict : forall kvs, Forall (fun kv => P (snd kv)) kvs -> P (VDict kvs).

Fixpoint value_ind_nested (v : value) : P v :=
  match v with
  | VNone => HNone
  | VBool b => HBool b
  | VInt z => HInt z
  | VStr s => HStr s
  | VList xs =>
      HList xs
        ((fix go (l : list value) : Forall P l :=
            match l with
            | [] => Forall_nil P
            | x :: tl => Forall_cons x (value_ind_nested x) (go tl)
            end) xs)
  | VDict kvs =>
      HDict kvs
        ((fix go (l : list (string * value)) : Forall (fun kv => P (snd kv)) l :=
            match l with
            | [] => Forall_nil _
            | kv :: tl =>
                Forall_cons kv
                  (match kv as p return P (snd p) with
                   | (_, x) => value_ind_nested x
                   end) (go tl)
            end) kvs)
  end.

End ValueInd.

(** * Properties of the resolver *)

Lemma bind_ok_inv {A B : Type} (m : result A) (k : A -> result B) (b : B) :
  bind m k = Ok b -> exists a, m = Ok a /\ k a = Ok b.
Proof. destruct m as [a|e]; simpl; [eauto|discriminate]. Qed.

Section MonadFacts.

Context {A B : Type}.

Lemma mapM_ok (f : A -> result B) (g : A -> B) (l : list A) :
  (forall x, In x l -> f x = Ok (g x)) -> mapM f l = Ok (map g l).
Proof.
  induction l as [|x tl IH]; intros H; simpl.
  - reflexivity.
  - rewrite (H x (or_introl eq_refl)); simpl.
    rewrite IH by (intros y Hy; apply H; right; exact Hy).
    reflexivity.
Qed.

Lemma mapM_ok_inv (f : A -> result B) (l : list A) (ys : list B) :
  mapM f l = Ok ys -> forall x, In x l -> exists y, f x = Ok y.
Proof.
  revert ys. induction l as [|x tl IH]; intros ys H z Hz; simpl in *.
  - contradiction.
  - apply bind_ok_inv in H as (y & Hy & H).
    destruct (mapM f tl) as [ys'|e] eqn:Htl; [|discriminate H].
    destruct Hz as [<-|Hz]; [eauto|exact (IH _ eq_refl _ Hz)].
Qed.

End MonadFacts.

Lemma get_dict (kvs : list (string * value)) (k : string) :
  get (VDict kvs) k = Ok (field (VDict kvs) k).
Proof. reflexivity. Qed.

Lemma mapM_get_dict (kvs : list (string * value)) (ks : list string) :
  mapM (get (VDict kvs)) ks = Ok (map (field (VDict kvs)) ks).
Proof. apply mapM_ok; intros; apply get_dict. Qed.

Lemma isinstance_dict_inv (v : value) :
  isinstance_dict v = true -> exists kvs, v = VDict kvs.
Proof. destruct v; simpl; try discriminate; eauto. Qed.

Lemma field_falsy (v : value) (k : string) :
  truthy v = false -> field v k = VNone.
Proof. destruct v as [| | | | |[|]]; simpl; try reflexivity; discriminate. Qed.

(** [x or {}] on a mapping-or-falsy value is a mapping with the same fields. *)
Lemma opt_dict_or (v : value) :
  opt_dict v = true ->
  exists kvs, py_or v (VDict []) = VDict kvs
              /\ forall k, field (VDict kvs) k = field v k.
Proof.
  unfold opt_dict, py_or; intros H.
  destruct (truthy v) eqn:Ht; simpl in H.
  - destruct (isinstance_dict_inv _ H) as [kvs ->]. eauto.
  - exists []. split; [reflexivity|].
    intros k. rewrite (field_falsy _ _ Ht). reflexivity.
Qed.

Lemma entries_falsy (v : value) : truthy v = false -> entries v = [].
Proof. destruct v as [| | | |[|]|]; simpl; try reflexivity; discriminate. Qed.

(** [x or []] on a list-or-falsy value iterates over the entries. *)
Lemma opt_list_or (p : value -> bool) (v : value) :
  opt_list_of p v = true ->
  iter (py_or v (VList [])) = Ok (entries v)
  /\ forallb p (entries v) = true.
Proof.
  unfold opt_list_of, py_or; intros H.
  destruct (truthy v) eqn:Ht; simpl in H.
  - destruct v; try discriminate. simpl. auto.
  - rewrite (entries_falsy _ Ht). simpl. auto.
Qed.

Lemma first_normalized_app (a b : list value) :
  first_normalized (a ++ b) =
  match first_normalized a with
  | Some n => Some n
  | None => first_normalized b
  end.
Proof.
  induction a as [|x tl IH]; simpl; [reflexivity|].
  destruct (truthy (_normalize x)); [reflexivity|exact IH].
Qed.

Lemma first_normalized_none (cs : list value) :
  (forall c, In c cs -> truthy (_normalize c) = false) ->
  first_normalized cs = None.
Proof.
  induction cs as [|x tl IH]; intros H; simpl; [reflexivity|].
  rewrite (H x (or_introl eq_refl)). apply IH. intros c Hc. apply H. right. exact Hc.
Qed.

Lemma first_normalized_skip (pre post : list value) :
  (forall c, In c pre -> truthy (_normalize c) = false) ->
  first_normalized (pre ++ post) = first_normalized post.
Proof.
  intros H. rewrite first_normalized_app, (first_normalized_none _ H). reflexivity.
Qed.

Lemma top_devices_iter (kvs : list (string * value)) :
  top_devices_ok (VDict kvs) = true ->
  exists devs1,
    get_default (VDict kvs) "devices" (VList []) = Ok devs1
    /\ iter devs1 = Ok (entries (field (VDict kvs) "devices"))
    /\ forallb isinstance_dict (entries (field (VDict kvs) "devices")) = true.
Proof.
  simpl. destruct (dict_lookup kvs "devices") as [v|]; [|eauto].
  destruct v as [| | |[|]|xs|[|]]; simpl; try discriminate; eauto.
Qed.

Lemma get_field_of_dict (e : value) (k : string) :
  isinstance_dict e = true -> get e k = Ok (field e k).
Proof. intros H. destruct (isinstance_dict_inv _ H) as [kvs ->]. reflexivity. Qed.

Lemma device_dsv_name (d : value) :
  device_ok d = true ->
  (dsv0 <- get d "dsv" ;; get (py_or dsv0 (VDict [])) "name")
  = Ok (field (field d "dsv") "name").
Proof.
  unfold device_ok. intros H. apply andb_prop in H as [Hd Hdsv].
  rewrite (get_field_of_dict _ _ Hd). simpl.
  destruct (opt_dict_or _ Hdsv) as (m & -> & Hm).
  rewrite get_dict, Hm. reflexivity.
Qed.

Lemma forallb_In {A : Type} (p : A -> bool) (l : list A) (x : A) :
  forallb p l = true -> In x l -> p x = true.
Proof. intros H Hx. rewrite forallb_forall in H. exact (H x Hx). Qed.

(** On a well-shaped record every lookup succeeds and the candidate list is
    the safe-navigation one. *)
Lemma build_candidates_well_shaped (rig : value) :
  well_shaped rig = true -> build_candidates rig = Ok (probed_candidates rig).
Proof.
  unfold well_shaped. intros H.
  repeat (apply andb_prop in H as [H ?]).
  destruct (isinstance_dict_inv _ H) as [kvs ->]. clear H.
  match goal with H : opt_dict (field _ "metadata") = true |- _ =>
    destruct (opt_dict_or _ H) as (md & Emd & Hmd) end.
  match goal with H : opt_dict (field _ "v4") = true |- _ =>
    destruct (opt_dict_or _ H) as (v4 & Ev4 & Hv4) end.
  match goal with H : opt_dict (field (field _ "v4") "mmv") = true |- _ =>
    destruct (opt_dict_or _ H) as (mmv & Emmv & Hmmv) end.
  match goal with H : opt_list_of isinstance_dict _ = true |- _ =>
    destruct (opt_list_or _ _ H) as (Eosv & Hosv) end.
  match goal with H : opt_list_of device_ok _ = true |- _ =>
    destruct (opt_list_or _ _ H) as (Edev & Hdev) end.
  match goal with H : top_devices_ok _ = true |- _ =>
    destruct (top_devices_iter _ H) as (devs1 & Eget & Etop & Htop) end.
  unfold build_candidates, probed_candidates.
  rewrite !get_dict. cbn [bind]. cbv zeta.
  rewrite Emd, Ev4.
  rewrite !get_dict. cbn [bind]. rewrite !Hv4, Emmv.
  rewrite !mapM_get_dict. cbn [bind].
  rewrite (mapM_ok _ (field (py_or (field (VDict kvs) "group") (VDict [])))
             (filter _ keys)).
  2:{ intros x Hx. apply filter_In in Hx as [_ Hx].
      apply get_field_of_dict. exact Hx. }
  cbn [bind]. rewrite !get_dict. cbn [bind]. rewrite Eosv. cbn [bind].
  rewrite (mapM_ok _ (fun e => field e "value")).
  2:{ intros x Hx. apply get_field_of_dict. exact (forallb_In _ _ _ Hosv Hx). }
  cbn [bind]. rewrite Edev. cbn [bind].
  rewrite (mapM_ok _ (fun e => field (field e "dsv") "name")).
  2:{ intros x Hx. apply device_dsv_name. exact (forallb_In _ _ _ Hdev Hx). }
  cbn [bind]. rewrite Eget. cbn [bind]. rewrite Etop. cbn [bind].
  rewrite (mapM_ok _ (fun e => field e "name")).
  2:{ intros x Hx. apply get_field_of_dict. exact (forallb_In _ _ _ Htop Hx). }
  cbn [bind]. rewrite Hmmv.
  rewrite (map_ext _ _ Hmd).
  destruct (isinstance_dict (py_or (field (VDict kvs) "group") (VDict [])));
    reflexivity.
Qed.

(** Probing a falsy [group] as an empty mapping only adds null candidates. *)
Lemma first_normalized_probed (rig : value) :
  first_normalized (probed_candidates rig)
  = first_normalized (spec_probe_order rig).
Proof.
  unfold probed_candidates, spec_probe_order, py_or.
  destruct (truthy (field rig "group")) eqn:Hg; [reflexivity|].
  rewrite !first_normalized_app.
  destruct (first_normalized (map (field rig) keys)); [reflexivity|].
  destruct (first_normalized (map (field (field rig "metadata")) keys));
    [reflexivity|].
  f_equal.
  destruct (field rig "group") as [| | | | |[|]]; try discriminate; reflexivity.
Qed.

Lemma disqualified_normalize (c : value) :
  disqualified c -> truthy (_normalize c) = false.
Proof.
  intros [H|(s & -> & H)].
  - destruct c; simpl in *; try reflexivity; discriminate.
  - unfold _normalize, placeholder_tokens. cbv zeta. destruct H as [H|H].
    + rewrite H. reflexivity.
    + rewrite H. destruct (negb (truthy (VStr (strip s)))); reflexivity.
Qed.

(** On a well-shaped record the resolver returns: the first qualifying
    candidate of the documented probe order, else the stored [rigId]. *)
Lemma resolve_rig_name_well_shaped (rig : value) :
  well_shaped rig = true ->
  resolve_rig_name rig = Ok (first_or_rigId rig (spec_probe_order rig)).
Proof.
  intros H. unfold resolve_rig_name, first_or_rigId.
  rewrite (build_candidates_well_shaped _ H). cbn [bind].
  rewrite first_normalized_probed.
  destruct (truthy rig) eqn:Ht; simpl negb; cbv iota.
  - destruct (first_normalized (spec_probe_order rig)); [reflexivity|].
    unfold well_shaped in H. destruct rig; try discriminate. reflexivity.
  - unfold well_shaped in H.
    destruct rig as [| | | | |[|]]; try discriminate. reflexivity.
Qed.

(** C1 (the code raises where the claim says it never does): a record whose
    top-level [devices] is null makes [resolve_rig_name] raise TypeError.
    The loop over [rig.get("devices", [])] has no [or []], unlike the loop
    over [v4.get("devices") or []]. *)
Theorem resolve_rig_name_null_devices_raises :
  resolve_rig_name rig_null_devices
  = Raise (Exc "TypeError" "'NoneType' object is not iterable").
Proof. reflexivity. Qed.

(** The unguarded [metadata.get] raises in the same way on a non-empty
    string, where the probe of [group] is guarded by [isinstance]. *)
Lemma resolve_rig_name_str_metadata_raises :
  resolve_rig_name rig_str_metadata
  = Raise (Exc "AttributeError" "'str' object has no attribute 'get'").
Proof. reflexivity. Qed.

(** C2, as stated, fails: the record [{"name": "Rig-1", "metadata": "n/a"}]
    has a qualifying first candidate, yet the resolver does not return it:
    [metadata.get] is not guarded the way the probe of [group] is. *)
Lemma probe_order_all_mappings_fails :
  ~ (forall kvs : list (string * value),
        resolve_rig_name (VDict kvs)
        = Ok (first_or_rigId (VDict kvs) (spec_probe_order (VDict kvs)))).
Proof.
  intros H.
  specialize (H [("name", VStr (u "Rig-1")); ("metadata", VStr (u "n/a"))]).
  vm_compute in H. discriminate H.
Qed.

(** C2 (amended): for every rig mapping on which candidate collection does
    not raise (metadata, v4, v4.mmv and every dsv a mapping or falsy, v4.osv
    and v4.devices a list of mappings or falsy, devices absent or a list of
    mappings), the resolver returns the first qualifying candidate of the
    probe order: the seven keys on rig, on rig.metadata, on rig.group when it
    is a mapping, rig.groupName again, rig.v4.mmv.workerName, the value of
    each rig.v4.osv entry, the dsv name of each rig.v4.devices entry, the name
    of each rig.devices entry. *)
Theorem resolve_rig_name_probe_order (kvs : list (string * value)) :
  well_shaped (VDict kvs) = true ->
  resolve_rig_name (VDict kvs)
  = Ok (match first_normalized (spec_probe_order (VDict kvs)) with
        | Some name => name
        | None => field (VDict kvs) "rigId"
        end).
Proof. intros H. exact (resolve_rig_name_well_shaped _ H). Qed.

Lemma resolve_rig_name_probe_order_witness :
  well_shaped rig_deep = true
  /\ resolve_rig_name rig_deep = Ok (VStr (u "RTX3080-A")).
Proof.
  split; [reflexivity|].
  exact (resolve_rig_name_probe_order _ (eq_refl : well_shaped rig_deep = true)).
Defined.

(** C6, as stated, fails: [{"rigId": "abc123", "metadata": "n/a"}] has no
    qualifying candidate, yet the resolver does not return its rigId. *)
Lemma rigId_fallback_all_mappings_fails :
  ~ (forall kvs : list (string * value),
        (forall c, In c (spec_probe_order (VDict kvs)) -> disqualified c) ->
        resolve_rig_name (VDict kvs) = Ok (field (VDict kvs) "rigId")).
Proof.
  intros H.
  specialize (H [("rigId", VStr (u "abc123")); ("metadata", VStr (u "n/a"))]).
  assert (Hc : forall c,
             In c (spec_probe_order
                     (VDict [("rigId", VStr (u "abc123")); ("metadata", VStr (u "n/a"))])) ->
             disqualified c).
  { intros c Hc. left. vm_compute in Hc.
    repeat (destruct Hc as [<-|Hc]; [reflexivity|]). contradiction. }
  specialize (H Hc). vm_compute in H. discriminate H.
Qed.

(** C6 (amended): for every rig mapping on which candidate collection does
    not raise and in which no candidate qualifies, the resolver returns
    rig.rigId as stored, null when the key is absent. *)
Theorem resolve_rig_name_rigId_fallback (kvs : list (string * value)) :
  well_shaped (VDict kvs) = true ->
  (forall c, In c (spec_probe_order (VDict kvs)) -> disqualified c) ->
  resolve_rig_name (VDict kvs)
  = Ok (match dict_lookup kvs "rigId" with Some v => v | None => VNone end).
Proof.
  intros Hs Hc. rewrite (resolve_rig_name_well_shaped _ Hs).
  unfold first_or_rigId.
  rewrite first_normalized_none; [reflexivity|].
  intros c Hin. apply disqualified_normalize, Hc, Hin.
Qed.

Lemma resolve_rig_name_rigId_fallback_witness :
  resolve_rig_name rig_raw_id = Ok (VStr (u " r1 ")).
Proof.
  apply (resolve_rig_name_rigId_fallback
           [("name", VStr (u "  ")); ("label", VStr (u "unmanaged")); ("rigId", VStr (u " r1 "))]).
  - reflexivity.
  - intros c Hc. vm_compute in Hc.
    repeat (destruct Hc as [<-|Hc];
            [first [ left; reflexivity
                   | right; eexists; split;
                     [reflexivity | first [left; reflexivity | right; reflexivity]] ]
            |]).
    contradiction.
Defined.

(** ** [strip] removes exactly the surrounding whitespace *)

Lemma lstrip_split (s : pystr) :
  exists l, s = (l ++ lstrip s)%list /\ all_space l = true.
Proof.
  induction s as [|c tl (l & El & Hl)]; simpl.
  - exists []. auto.
  - destruct (isspace c) eqn:Hc.
    + exists (c :: l). simpl. rewrite Hc, Hl, <- El. auto.
    + exists []. auto.
Qed.

Lemma rstrip_split (s : pystr) :
  exists r, s = (rstrip s ++ r)%list /\ all_space r = true.
Proof.
  induction s as [|c tl (r & Er & Hr)]; simpl.
  - exists []. auto.
  - destruct (rstrip tl) as [|c' t'] eqn:Et.
    + simpl in Er. subst tl. destruct (isspace c) eqn:Hc.
      * exists (c :: r). simpl. rewrite Hc, Hr. auto.
      * exists r. auto.
    + exists r. simpl. rewrite Er at 1. auto.
Qed.

Lemma lstrip_first (s : pystr) (c : N) :
  first_char (lstrip s) = Some c -> isspace c = false.
Proof.
  induction s as [|a tl IH]; simpl; [discriminate|].
  destruct (isspace a) eqn:Ha; [exact IH|].
  simpl. intros [= <-]. exact Ha.
Qed.

Lemma rstrip_first_inv (s : pystr) (c : N) :
  first_char (rstrip s) = Some c -> first_char s = Some c.
Proof.
  destruct s as [|a tl]; simpl; [discriminate|].
  destruct (rstrip tl); [destruct (isspace a)|]; simpl; congruence.
Qed.

Lemma rstrip_last (s : pystr) (c : N) :
  last_char (rstrip s) = Some c -> isspace c = false.
Proof.
  induction s as [|a tl IH]; simpl; [discriminate|].
  destruct (rstrip tl) as [|c' t'] eqn:Et.
  - destruct (isspace a) eqn:Ha; simpl; [discriminate|].
    intros [= <-]. exact Ha.
  - intros H. apply IH. exact H.
Qed.

Lemma strip_split (s : pystr) :
  exists l r, s = (l ++ strip s ++ r)%list
              /\ all_space l = true /\ all_space r = true.
Proof.
  destruct (lstrip_split s) as (l & El & Hl).
  destruct (rstrip_split (lstrip s)) as (r & Er & Hr).
  exists l, r. unfold strip. rewrite <- Er. auto.
Qed.

Lemma strip_trimmed (s : pystr) : trimmed (strip s).
Proof.
  unfold strip. split; intros c H.
  - apply rstrip_first_inv in H. exact (lstrip_first _ _ H).
  - exact (rstrip_last _ _ H).
Qed.

(** ** Filtering of the candidates *)

Lemma str_eqb_eq (a b : pystr) : str_eqb a b = true <-> a = b.
Proof.
  revert b. induction a as [|x a IH]; intros [|y b]; simpl;
    try (split; [discriminate|discriminate]); [tauto|].
  rewrite Bool.andb_true_iff, N.eqb_eq, IH. split.
  - intros [-> ->]. reflexivity.
  - intros [= -> ->]. auto.
Qed.

Lemma isspace_iff (c : N) : isspace c = true <-> In c python_whitespace.
Proof.
  unfold isspace, python_whitespace.
  rewrite !Bool.orb_true_iff, !Bool.andb_true_iff, !N.leb_le, !N.eqb_eq.
  simpl In. lia.
Qed.

Lemma upper_char_fold (a b : N) :
  N.eqb (upper_char a) (upper_char b) = N.eqb (fold_case a) (fold_case b).
Proof.
  unfold upper_char, fold_case.
  destruct (N.leb_spec 97 a), (N.leb_spec a 122), (N.leb_spec 97 b),
    (N.leb_spec b 122), (N.leb_spec 65 a), (N.leb_spec a 90),
    (N.leb_spec 65 b), (N.leb_spec b 90); cbn [andb]; try lia;
    match goal with
    | |- N.eqb ?x ?y = N.eqb ?x' ?y' =>
        destruct (N.eqb_spec x y), (N.eqb_spec x' y'); try reflexivity; lia
    end.
Qed.

(** Comparing upper-case forms is comparing up to letter case. *)
Lemma upper_eq_ignore_case (a b : pystr) :
  str_eqb (upper a) (upper b) = eq_ignore_case a b.
Proof.
  unfold eq_ignore_case, upper. revert b.
  induction a as [|x a IH]; intros [|y b]; simpl; try reflexivity.
  rewrite upper_char_fold, IH. reflexivity.
Qed.

Lemma placeholder_test (name : pystr) :
  str_in (upper name) placeholder_tokens = is_placeholder name.
Proof.
  unfold str_in, placeholder_tokens, is_placeholder.
  induction PLACEHOLDER_RIG_NAMES as [|p ps IH]; simpl; [reflexivity|].
  rewrite upper_eq_ignore_case, IH. reflexivity.
Qed.

Lemma normalize_str (s : pystr) :
  _normalize (VStr s)
  = match strip s with
    | [] => VNone
    | _ => if is_placeholder (strip s) then VNone else VStr (strip s)
    end.
Proof.
  unfold _normalize. cbv zeta. rewrite placeholder_test.
  destruct (strip s); reflexivity.
Qed.

Lemma normalize_str_truthy (c : value) (name : pystr) :
  _normalize c = VStr name -> truthy (_normalize c) = true.
Proof.
  intros H. rewrite H. destruct c; try discriminate H.
  rewrite normalize_str in H.
  destruct (strip s) as [|x tl]; [discriminate H|].
  destruct (is_placeholder (x :: tl)); [discriminate H|].
  injection H as <-. reflexivity.
Qed.

Lemma first_normalized_hit (pre post : list value) (c : value) (name : pystr) :
  (forall x, In x pre -> _normalize x = VNone) ->
  _normalize c = VStr name ->
  first_normalized (pre ++ c :: post)%list = Some (VStr name).
Proof.
  intros Hpre Hc. rewrite first_normalized_skip.
  - simpl. rewrite (normalize_str_truthy _ _ Hc), Hc. reflexivity.
  - intros x Hx. rewrite (Hpre x Hx). reflexivity.
Qed.

(** C3, as stated, fails: the first candidate of
    [{"name": "Rig-1", "metadata": ["n/a"]}] is a string that is neither blank
    nor a placeholder, yet it is not returned at once: every candidate is
    looked up before the first one is examined, and the lookup in [metadata]
    raises. *)
Lemma first_candidate_not_returned_at_once :
  ~ (forall (kvs : list (string * value)) (s : pystr),
        dict_lookup kvs "name" = Some (VStr s) ->
        strip s <> [] ->
        is_placeholder (strip s) = false ->
        resolve_rig_name (VDict kvs) = Ok (VStr (strip s))).
Proof.
  intros H.
  specialize (H [("name", VStr (u "Rig-1")); ("metadata", VList [VStr (u "n/a")])]
                (u "Rig-1") eq_refl).
  vm_compute in H.
  assert (E : @Raise value (Exc "AttributeError" "'list' object has no attribute 'get'")
              = Ok (VStr (u "Rig-1"))).
  { apply H; [discriminate|reflexivity]. }
  discriminate E.
Qed.

(** C3 (amended): once the candidate list has been collected, each
    candidate in order is treated as follows.  One that is not a string is
    skipped.  A string is trimmed of the whitespace at its two ends, the
    whitespace being the code points of [python_whitespace], and skipped when
    nothing is left.  A trimmed string equal to a placeholder sentinel up to
    letter case is skipped.  Any other trimmed string is returned, whatever
    candidates follow it. *)
Theorem candidate_filtering :
  (forall c, isinstance_str c = false -> _normalize c = VNone)
  /\ (forall c, isspace c = true <-> In c python_whitespace)
  /\ (forall s,
         trimmed (strip s)
         /\ exists l r, s = (l ++ strip s ++ r)%list
                         /\ all_space l = true /\ all_space r = true)
  /\ (forall s, strip s = [] -> _normalize (VStr s) = VNone)
  /\ (forall s, is_placeholder (strip s) = true -> _normalize (VStr s) = VNone)
  /\ (forall s,
         strip s <> [] -> is_placeholder (strip s) = false ->
         _normalize (VStr s) = VStr (strip s))
  /\ (forall rig pre c post name,
         truthy rig = true ->
         build_candidates rig = Ok (pre ++ c :: post)%list ->
         (forall x, In x pre -> _normalize x = VNone) ->
         _normalize c = VStr name ->
         resolve_rig_name rig = Ok (VStr name)).
Proof.
  split; [|split; [|split; [|split; [|split; [|split]]]]].
  - intros c H. destruct c; try reflexivity; discriminate.
  - exact isspace_iff.
  - intros s. split; [apply strip_trimmed|apply strip_split].
  - intros s H. rewrite normalize_str, H. reflexivity.
  - intros s H. rewrite normalize_str, H. destruct (strip s); reflexivity.
  - intros s Hne Hp. rewrite normalize_str, Hp.
    destruct (strip s); [contradiction|reflexivity].
  - intros rig pre c post name Ht Hb Hpre Hc.
    unfold resolve_rig_name. rewrite Ht, Hb. cbn [negb bind].
    rewrite (first_normalized_hit _ _ _ _ Hpre Hc). reflexivity.
Qed.

Lemma candidate_filtering_witness :
  resolve_rig_name rig_unicode_blanks = Ok (VStr (u "Worker7")).
Proof.
  destruct candidate_filtering as (_ & _ & _ & _ & _ & _ & H).
  apply (H rig_unicode_blanks
           (VStr ([32; 32] ++ u "unmanaged" ++ [160])%N%list :: repeat VNone 7)
           (VStr ([8195] ++ u "Worker7" ++ [10])%N%list)
           (repeat VNone 14)).
  - reflexivity.
  - reflexivity.
  - intros x Hx. simpl in Hx.
    repeat (destruct Hx as [<-|Hx]; [reflexivity|]). contradiction.
  - reflexivity.
Defined.

(** C8: on a null rig the resolver returns null, and raises nothing. *)
Theorem resolve_rig_name_null : resolve_rig_name VNone = Ok VNone.
Proof. reflexivity. Qed.

(** ** The sample records of the specification *)

Example resolve_precedence :
  resolve_rig_name rig_precedence = Ok (VStr (u "GPU-Rig-1")).
Proof. reflexivity. Qed.

Example resolve_deep_fallback :
  resolve_rig_name rig_deep = Ok (VStr (u "RTX3080-A")).
Proof. reflexivity. Qed.

Example resolve_terminal_fallback :
  resolve_rig_name rig_only_id = Ok (VStr (u "abc123")).
Proof. reflexivity. Qed.

Example resolve_empty_mapping : resolve_rig_name (VDict []) = Ok VNone.
Proof. reflexivity. Qed.

Example resolve_placeholder :
  resolve_rig_name rig_placeholder = Ok (VStr (u "Worker7")).
Proof. reflexivity. Qed.

(** A name made of U+00A0 and U+2003 only is blank. *)
Example normalize_unicode_blank : _normalize (VStr [160; 8195]%N) = VNone.
Proof. reflexivity. Qed.

(** ** Exactly the well-shaped records are resolved without raising *)

Lemma get_ok_dict (o : value) (k : string) (v : value) :
  get o k = Ok v -> isinstance_dict o = true.
Proof. destruct o; simpl; intros H; try discriminate H; reflexivity. Qed.

Lemma or_dict_opt (v : value) :
  isinstance_dict (py_or v (VDict [])) = true -> opt_dict v = true.
Proof.
  unfold py_or, opt_dict. destruct (truthy v); simpl; [|reflexivity].
  intros H. exact H.
Qed.

Lemma iter_all_dicts (v : value) (items : list value) :
  iter v = Ok items ->
  (forall x, In x items -> isinstance_dict x = true) ->
  match v with
  | VList xs => xs = items
  | VDict [] => True
  | VStr [] => True
  | _ => False
  end.
Proof.
  destruct v as [| | |[|c s]|xs|[|[k v] kvs]]; simpl; intros H Hall;
    try discriminate H; try exact I; injection H as <-.
  - specialize (Hall _ (or_introl eq_refl)). discriminate Hall.
  - reflexivity.
  - specialize (Hall _ (or_introl eq_refl)). discriminate Hall.
Qed.

Lemma or_list_opt (p : value -> bool) (v : value) (items : list value) :
  iter (py_or v (VList [])) = Ok items ->
  (forall x, In x items -> isinstance_dict x = true) ->
  (forall x, In x items -> p x = true) ->
  opt_list_of p v = true.
Proof.
  unfold py_or, opt_list_of. destruct (truthy v) eqn:Ht; simpl; [|reflexivity].
  intros Hi Hd Hp. pose proof (iter_all_dicts _ _ Hi Hd) as Hv.
  destruct v as [| | |[|]|xs|[|]]; try contradiction; try discriminate Ht.
  subst items. apply forallb_forall. exact Hp.
Qed.

Lemma build_candidates_ok_well_shaped (rig : value) (cs : list value) :
  build_candidates rig = Ok cs -> well_shaped rig = true.
Proof.
  unfold build_candidates. intros H.
  apply bind_ok_inv in H as (metadata0 & Hmd & H).
  pose proof (get_ok_dict _ _ _ Hmd) as Hrig.
  destruct (isinstance_dict_inv _ Hrig) as [kvs ->].
  rewrite get_dict in Hmd. injection Hmd as <-.
  rewrite !get_dict in H. cbn [bind] in H. cbv zeta in H.
  apply bind_ok_inv in H as (mmv0 & Hmmv & H).
  pose proof (or_dict_opt _ (get_ok_dict _ _ _ Hmmv)) as Sv4.
  destruct (opt_dict_or _ Sv4) as (v4 & Ev4 & Hv4).
  rewrite Ev4 in *. rewrite get_dict in Hmmv. injection Hmmv as <-.
  rewrite mapM_get_dict in H. cbn [bind] in H.
  apply bind_ok_inv in H as (c_meta & Hmeta & H).
  destruct (mapM_ok_inv _ _ _ Hmeta "name" (or_introl eq_refl)) as (m1 & Hm1).
  pose proof (or_dict_opt _ (get_ok_dict _ _ _ Hm1)) as Smd.
  apply bind_ok_inv in H as (c_group & _ & H).
  apply bind_ok_inv in H as (c_mmv & Hw & H).
  pose proof (or_dict_opt _ (get_ok_dict _ _ _ Hw)) as Smmv.
  rewrite get_dict in H. cbn [bind] in H.
  apply bind_ok_inv in H as (os_values & Hosi & H).
  apply bind_ok_inv in H as (c_osv & Hosv & H).
  assert (Sosv : opt_list_of isinstance_dict (field (VDict v4) "osv") = true).
  { assert (Hd : forall x, In x os_values -> isinstance_dict x = true).
    { intros x Hx. destruct (mapM_ok_inv _ _ _ Hosv x Hx) as (y & Hg).
      exact (get_ok_dict _ _ _ Hg). }
    exact (or_list_opt _ _ _ Hosi Hd Hd). }
  rewrite get_dict in H. cbn [bind] in H.
  apply bind_ok_inv in H as (v4_devices & Hdvi & H).
  apply bind_ok_inv in H as (c_dsv & Hdsv & H).
  assert (Sdev : opt_list_of device_ok (field (VDict v4) "devices") = true).
  { apply (or_list_opt _ _ _ Hdvi); intros x Hx;
      destruct (mapM_ok_inv _ _ _ Hdsv x Hx) as (y & Hg);
      apply bind_ok_inv in Hg as (dsv0 & Hg0 & Hg1);
      pose proof (get_ok_dict _ _ _ Hg0) as Hxd; [exact Hxd|].
    unfold device_ok. rewrite Hxd. simpl.
    rewrite (get_field_of_dict _ _ Hxd) in Hg0. injection Hg0 as <-.
    exact (or_dict_opt _ (get_ok_dict _ _ _ Hg1)). }
  apply bind_ok_inv in H as (devs1 & Hget & H).
  apply bind_ok_inv in H as (devices & Hiter & H).
  apply bind_ok_inv in H as (c_dev & Hdev & _).
  assert (Stop : top_devices_ok (VDict kvs) = true).
  { assert (Hd : forall x, In x devices -> isinstance_dict x = true).
    { intros x Hx. destruct (mapM_ok_inv _ _ _ Hdev x Hx) as (y & Hg).
      exact (get_ok_dict _ _ _ Hg). }
    pose proof (iter_all_dicts _ _ Hiter Hd) as Hv.
    simpl in Hget. injection Hget as <-. simpl.
    destruct (dict_lookup kvs "devices") as [v|]; [|reflexivity].
    destruct v as [| | |[|]|xs|[|]]; try contradiction; try reflexivity.
    subst xs. apply forallb_forall. exact Hd. }
  change (opt_dict (field (VDict kvs) "metadata") = true) in Smd.
  change (opt_dict (field (VDict v4) "mmv") = true) in Smmv.
  unfold well_shaped. rewrite Stop, Smd, Sv4, <- !Hv4, Smmv, Sosv, Sdev.
  reflexivity.
Qed.

(** The resolver returns on a falsy argument and on a well-shaped record,
    and raises on everything else. *)
Lemma resolve_rig_name_returns_iff (rig : value) :
  (exists v, resolve_rig_name rig = Ok v)
  <-> (truthy rig = false \/ well_shaped rig = true).
Proof.
  split.
  - intros [v H]. unfold resolve_rig_name in H.
    destruct (truthy rig); [right|left; reflexivity]. cbn [negb] in H.
    apply bind_ok_inv in H as (cs & Hcs & _).
    exact (build_candidates_ok_well_shaped _ _ Hcs).
  - intros [H|H].
    + exists VNone. unfold resolve_rig_name. rewrite H. reflexivity.
    + rewrite (resolve_rig_name_well_shaped _ H). eauto.
Qed.

(** * Further properties of the resolver *)

(** ** Normal forms *)

Lemma lstrip_fixed (s : pystr) :
  (forall c, first_char s = Some c -> isspace c = false) -> lstrip s = s.
Proof.
  destruct s as [|a tl]; simpl; intros H; [reflexivity|].
  rewrite (H a eq_refl). reflexivity.
Qed.

Lemma rstrip_fixed (s : pystr) :
  (forall c, last_char s = Some c -> isspace c = false) -> rstrip s = s.
Proof.
  induction s as [|a tl IH]; simpl; intros H; [reflexivity|].
  destruct tl as [|b tl'].
  - simpl. rewrite (H a eq_refl). reflexivity.
  - rewrite (IH H). reflexivity.
Qed.

Lemma strip_idempotent (s : pystr) : strip (strip s) = strip s.
Proof.
  destruct (strip_trimmed s) as [Hf Hl].
  unfold strip at 1. rewrite (lstrip_fixed _ Hf). exact (rstrip_fixed _ Hl).
Qed.

(** What [_normalize] keeps: a string whose trimmed form is neither empty
    nor a placeholder. *)
Lemma normalize_truthy_inv (c : value) :
  truthy (_normalize c) = true ->
  exists s, c = VStr s /\ _normalize c = VStr (strip s)
            /\ strip s <> []
            /\ str_in (upper (strip s)) placeholder_tokens = false.
Proof.
  destruct c as [| | |s| |]; try discriminate.
  intros H. exists s. split; [reflexivity|].
  unfold _normalize in *. cbv zeta in *.
  destruct (truthy (VStr (strip s))) eqn:Ht; cbn [negb] in *; [|discriminate H].
  destruct (str_in (upper (strip s)) placeholder_tokens) eqn:Hp;
    [discriminate H|].
  split; [reflexivity|]. split; [|reflexivity].
  intros E. rewrite E in Ht. discriminate Ht.
Qed.

Lemma normalize_shape (c : value) :
  _normalize c = VNone \/ truthy (_normalize c) = true.
Proof.
  destruct c as [| | |s| |]; try (left; reflexivity).
  unfold _normalize. cbv zeta.
  destruct (truthy (VStr (strip s))) eqn:Ht; cbn [negb]; [|left; reflexivity].
  destruct (str_in (upper (strip s)) placeholder_tokens);
    [left; reflexivity|right; exact Ht].
Qed.

(** [_normalize] is idempotent: a name it returns is returned unchanged when
    normalized again, and a rejected candidate stays rejected. *)
Theorem normalize_idempotent (c : value) :
  _normalize (_normalize c) = _normalize c.
Proof.
  destruct (normalize_shape c) as [E|Ht]; [rewrite E; reflexivity|].
  destruct (normalize_truthy_inv _ Ht) as (s & _ & E & Hne & Hp).
  rewrite E. unfold _normalize. cbv zeta. rewrite strip_idempotent, Hp.
  destruct (strip s); [contradiction|reflexivity].
Qed.

(** ** Letter case *)

Lemma isspace_printable (c : N) : (33 <= c <= 127)%N -> isspace c = false.
Proof.
  intros H. destruct (isspace c) eqn:E; [|reflexivity].
  apply isspace_iff in E. simpl in E. lia.
Qed.

Lemma isspace_upper_char (c : N) : isspace (upper_char c) = isspace c.
Proof.
  unfold upper_char.
  destruct (N.leb_spec 97 c), (N.leb_spec c 122); cbn [andb];
    try reflexivity.
  rewrite !isspace_printable by lia. reflexivity.
Qed.

Lemma lstrip_upper (s : pystr) : lstrip (upper s) = upper (lstrip s).
Proof.
  induction s as [|a tl IH]; simpl; [reflexivity|].
  rewrite isspace_upper_char. destruct (isspace a); [exact IH|reflexivity].
Qed.

Lemma rstrip_upper (s : pystr) : rstrip (upper s) = upper (rstrip s).
Proof.
  induction s as [|a tl IH]; simpl; [reflexivity|].
  fold (upper tl). rewrite IH, isspace_upper_char.
  destruct (rstrip tl); simpl; [destruct (isspace a)|]; reflexivity.
Qed.

Lemma strip_upper (s : pystr) : strip (upper s) = upper (strip s).
Proof. unfold strip. rewrite lstrip_upper, rstrip_upper. reflexivity. Qed.

Lemma normalize_kept_by_upper (s : pystr) :
  truthy (_normalize (VStr s))
  = truthy (VStr (upper (strip s)))
    && negb (str_in (upper (strip s)) placeholder_tokens).
Proof.
  unfold _normalize. cbv zeta.
  destruct (strip s) as [|x tl]; [reflexivity|].
  change (truthy (VStr (upper (x :: tl)))) with true.
  change (truthy (VStr (x :: tl))) with true. cbn [negb andb].
  destruct (str_in (upper (x :: tl)) placeholder_tokens); reflexivity.
Qed.

(** Whether a candidate is kept does not depend on its letter case: two
    strings with the same upper-case form are both kept or both skipped. *)
Theorem normalize_case_insensitive (s t : pystr) :
  upper s = upper t ->
  truthy (_normalize (VStr s)) = truthy (_normalize (VStr t)).
Proof.
  intros H. rewrite !normalize_kept_by_upper, <- !strip_upper, H. reflexivity.
Qed.

Lemma normalize_case_insensitive_witness :
  truthy (_normalize (VStr (u " - Unmanaged - ")))
  = truthy (_normalize (VStr (u " - UNMANAGED - "))).
Proof.
  apply (normalize_case_insensitive (u " - Unmanaged - ") (u " - UNMANAGED - ")).
  reflexivity.
Defined.

(** ** The exceptions of the resolver *)

Lemma get_default_raise (o : value) (k : string) (d : value) (e : exc) :
  get_default o k d = Raise e -> lookup_error e = true.
Proof.
  destruct o; simpl; intros H; try discriminate H; injection H as <-;
    reflexivity.
Qed.

Lemma iter_raise (o : value) (e : exc) :
  iter o = Raise e -> lookup_error e = true.
Proof.
  destruct o; simpl; intros H; try discriminate H; injection H as <-;
    reflexivity.
Qed.

Lemma bind_raise {A B : Type} (m : result A) (k : A -> result B) (e : exc) :
  (m = Raise e -> lookup_error e = true) ->
  (forall a, k a = Raise e -> lookup_error e = true) ->
  bind m k = Raise e -> lookup_error e = true.
Proof.
  intros Hm Hk. destruct m as [a|e']; simpl.
  - apply Hk.
  - intros [= ->]. apply Hm. reflexivity.
Qed.

Lemma mapM_raise {A B : Type} (f : A -> result B) (l : list A) (e : exc) :
  (forall x, f x = Raise e -> lookup_error e = true) ->
  mapM f l = Raise e -> lookup_error e = true.
Proof.
  intros Hf. induction l as [|x tl IH]; simpl; [discriminate|].
  apply bind_raise; [apply Hf|]. intros y.
  apply bind_raise; [exact IH|]. intros ys. discriminate.
Qed.

Ltac lookup_raise :=
  repeat first
    [ apply get_default_raise
    | apply iter_raise
    | discriminate
    | apply mapM_raise; intros ?
    | apply bind_raise; [|intros ?] ].

(** Whatever the resolver raises is an AttributeError (a [.get] on something
    that is not a mapping) or a TypeError (a loop over something that is not
    iterable). *)
Theorem resolve_rig_name_raises_lookup_errors (rig : value) (e : exc) :
  resolve_rig_name rig = Raise e -> lookup_error e = true.
Proof.
  unfold resolve_rig_name.
  destruct (truthy rig); cbn [negb]; [|discriminate].
  apply bind_raise.
  - unfold build_candidates, get. lookup_raise.
  - intros cs. destruct (first_normalized cs); [discriminate|].
    apply get_default_raise.
Qed.

Lemma resolve_rig_name_raises_lookup_errors_witness :
  lookup_error (Exc "TypeError" "'NoneType' object is not iterable") = true.
Proof.
  exact (resolve_rig_name_raises_lookup_errors rig_null_devices _ eq_refl).
Defined.

(** ** What the resolver returns *)

Lemma first_normalized_some (cs : list value) (v : value) :
  first_normalized cs = Some v ->
  exists c, In c cs /\ _normalize c = v /\ truthy v = true.
Proof.
  induction cs as [|x tl IH]; simpl; [discriminate|].
  destruct (truthy (_normalize x)) eqn:Hx.
  - intros [= <-]. exists x. auto.
  - intros H. destruct (IH H) as (c & Hc & E). exists c. auto.
Qed.

(** A returned value is the stored [rigId], or a name: a non-empty string
    with no whitespace at either end that is not a placeholder in any letter
    case. *)
Theorem resolve_rig_name_result (rig v : value) :
  resolve_rig_name rig = Ok v ->
  v = field rig "rigId"
  \/ exists name,
       v = VStr name /\ name <> [] /\ trimmed name
       /\ str_in (upper name) (map upper PLACEHOLDER_RIG_NAMES) = false.
Proof.
  unfold resolve_rig_name. destruct (truthy rig) eqn:Ht; cbn [negb].
  - intros H. apply bind_ok_inv in H as (cs & Hcs & H).
    destruct (first_normalized cs) as [n|] eqn:Hn.
    + injection H as <-. right.
      destruct (first_normalized_some _ _ Hn) as (c & _ & E & Hv).
      rewrite <- E in Hv.
      destruct (normalize_truthy_inv _ Hv) as (s & _ & E' & Hne & Hp).
      exists (strip s). rewrite <- E, E'.
      repeat split; try assumption; apply strip_trimmed.
    + left. destruct rig; try discriminate H.
      rewrite get_dict in H. injection H as <-. reflexivity.
  - intros [= <-]. left. rewrite (field_falsy _ _ Ht). reflexivity.
Qed.

Lemma resolve_rig_name_result_witness :
  VStr (u "GPU-Rig-1") = field rig_precedence "rigId"
  \/ exists name,
       VStr (u "GPU-Rig-1") = VStr name /\ name <> [] /\ trimmed name
       /\ str_in (upper name) (map upper PLACEHOLDER_RIG_NAMES) = false.
Proof.
  exact (resolve_rig_name_result rig_precedence (VStr (u "GPU-Rig-1")) eq_refl).
Defined.

(** A usable top-level [name] is the answer on every record that resolves. *)
Theorem resolve_rig_name_name_wins (rig : value) :
  well_shaped rig = true ->
  truthy (_normalize (field rig "name")) = true ->
  resolve_rig_name rig = Ok (_normalize (field rig "name")).
Proof.
  intros Hs Hn. rewrite (resolve_rig_name_well_shaped _ Hs).
  unfold first_or_rigId, spec_probe_order, keys.
  cbn [map app first_normalized]. rewrite Hn. reflexivity.
Qed.

Lemma resolve_rig_name_name_wins_witness :
  resolve_rig_name rig_precedence = Ok (VStr (u "GPU-Rig-1")).
Proof.
  exact (resolve_rig_name_name_wins rig_precedence eq_refl eq_refl).
Defined.

(** ** The keys the resolver reads *)

Lemma build_candidates_probed_keys (kvs1 kvs2 : list (string * value)) :
  (forall k, In k probed_keys -> dict_lookup kvs1 k = dict_lookup kvs2 k) ->
  build_candidates (VDict kvs1) = build_candidates (VDict kvs2).
Proof.
  intros H.
  assert (Hf : forall k, In k probed_keys ->
                         field (VDict kvs1) k = field (VDict kvs2) k)
    by (intros k Hk; simpl; rewrite (H k Hk); reflexivity).
  assert (Hk : forall k, In k keys -> In k probed_keys)
    by (intros k Hk; apply in_or_app; left; exact Hk).
  unfold build_candidates. rewrite !get_dict, !mapM_get_dict. cbn [bind].
  rewrite (Hf "metadata"), (Hf "group"), (Hf "v4"), (Hf "groupName")
    by (vm_compute; tauto).
  rewrite (map_ext_in _ _ keys (fun k Hin => Hf k (Hk k Hin))).
  unfold get_default. rewrite (H "devices") by (vm_compute; tauto).
  reflexivity.
Qed.

(** The resolver looks at the rig through twelve keys only: two mappings
    that agree on them resolve alike, whatever else they hold, and an empty
    mapping resolves like any mapping that has none of them. *)
Theorem resolve_rig_name_probed_keys (kvs1 kvs2 : list (string * value)) :
  (forall k, In k probed_keys -> dict_lookup kvs1 k = dict_lookup kvs2 k) ->
  resolve_rig_name (VDict kvs1) = resolve_rig_name (VDict kvs2).
Proof.
  intros H.
  assert (Hid : dict_lookup kvs1 "rigId" = dict_lookup kvs2 "rigId")
    by (apply H; vm_compute; tauto).
  assert (Hnil : forall kvs,
             (forall k, In k probed_keys -> dict_lookup kvs k = None) ->
             resolve_rig_name (VDict kvs) = Ok VNone).
  { intros kvs Hk. destruct kvs as [|kv tl]; [reflexivity|].
    unfold resolve_rig_name. cbn [truthy negb].
    rewrite (build_candidates_probed_keys (kv :: tl) []) by exact Hk.
    remember (build_candidates (VDict [])) as b eqn:Eb.
    vm_compute in Eb. subst b.
    cbn [bind first_normalized _normalize truthy].
    rewrite get_dict. cbn [field].
    rewrite (Hk "rigId") by (vm_compute; tauto). reflexivity. }
  destruct kvs1 as [|kv1 t1]; [|destruct kvs2 as [|kv2 t2]].
  - symmetry. rewrite (Hnil []) by reflexivity. apply Hnil.
    intros k Hk. rewrite <- (H k Hk). reflexivity.
  - rewrite (Hnil []) by reflexivity. apply Hnil.
    intros k Hk. rewrite (H k Hk). reflexivity.
  - unfold resolve_rig_name. cbn [truthy negb].
    rewrite (build_candidates_probed_keys _ _ H), !get_dict. cbn [field].
    rewrite Hid. reflexivity.
Qed.

Lemma resolve_rig_name_probed_keys_witness :
  resolve_rig_name (VDict [("status", VStr (u "MINING")); ("name", VStr (u "Rig-1"))])
  = resolve_rig_name (VDict [("name", VStr (u "Rig-1"))]).
Proof.
  apply resolve_rig_name_probed_keys.
  intros k Hk. vm_compute in Hk.
  repeat (destruct Hk as [<-|Hk]; [reflexivity|]). contradiction.
Defined.

(** ** The second look at [groupName] *)

Lemma first_normalized_none_inv (cs : list value) (c : value) :
  first_normalized cs = None -> In c cs -> truthy (_normalize c) = false.
Proof.
  induction cs as [|x tl IH]; simpl; [contradiction|].
  destruct (truthy (_normalize x)) eqn:Hx; [discriminate|].
  intros H [<-|Hc]; [exact Hx|exact (IH H Hc)].
Qed.

Lemma first_normalized_once (rig : value) :
  first_normalized (spec_probe_order rig)
  = first_normalized (spec_probe_order_once rig).
Proof.
  unfold spec_probe_order, spec_probe_order_once.
  rewrite !first_normalized_app.
  destruct (first_normalized (map (field rig) keys)) eqn:Htop; [reflexivity|].
  assert (Hg : truthy (_normalize (field rig "groupName")) = false).
  { apply (first_normalized_none_inv _ _ Htop).
    apply in_map. vm_compute. tauto. }
  destruct (first_normalized (map (field (field rig "metadata")) keys));
    [reflexivity|].
  destruct (first_normalized
              (if isinstance_dict (field rig "group")
               then map (field (field rig "group")) keys else []));
    [reflexivity|].
  cbn [first_normalized]. rewrite Hg. reflexivity.
Qed.

(** The second probe of [rig.groupName] never decides the result: the
    resolver returns what the probe order without it gives. *)
Theorem resolve_rig_name_groupName_once (rig : value) :
  well_shaped rig = true ->
  resolve_rig_name rig = Ok (first_or_rigId rig (spec_probe_order_once rig)).
Proof.
  intros H. rewrite (resolve_rig_name_well_shaped _ H).
  unfold first_or_rigId. rewrite first_normalized_once. reflexivity.
Qed.

Lemma resolve_rig_name_groupName_once_witness :
  resolve_rig_name (VDict [("groupName", VStr (u "Farm A"))]) = Ok (VStr (u "Farm A")).
Proof.
  exact (resolve_rig_name_groupName_once
           (VDict [("groupName", VStr (u "Farm A"))]) eq_refl).
Defined.

(** * Properties of the coordinator *)

Module CoordinatorFacts.
Import Coordinator.

Lemma ltb_window (n t : N) : (n + t <? n + 10)%N = (t <? 10)%N.
Proof.
  destruct (N.ltb_spec t 10), (N.ltb_spec (n + t) (n + 10)); try reflexivity; lia.
Qed.

Ltac run_refresh :=
  unfold _async_update_data, try_except, mbind, clock, emit, await_until,
    ret, raise; cbn [now trace fst snd]; rewrite ?ltb_window, ?N.add_assoc.

(** The rigs call raises inside the window. *)
Lemma refresh_rigs_raises self w t e :
  get_rigs_data (_api self) = Completes t (Raise e) ->
  (t < 10)%N ->
  _async_update_data self w
  = (Raise (reraised e),
     {| now := now w + t; trace := trace w ++ [CallRigs] |}).
Proof.
  intros Hr Ht. run_refresh. rewrite Hr, ltb_window.
  apply N.ltb_lt in Ht. rewrite Ht. unfold reraised.
  destruct (isinstance_Exception e); reflexivity.
Qed.

(** The rigs call does not end inside the window. *)
Lemma refresh_rigs_timeout self w :
  (get_rigs_data (_api self) = Hangs
   \/ exists t r, get_rigs_data (_api self) = Completes t r /\ (10 <= t)%N) ->
  _async_update_data self w
  = (Raise (UpdateFailed ("Error communicating with API: " ++ exc_str TimeoutError)
              TimeoutError),
     {| now := N.max (now w) (now w + 10); trace := trace w ++ [CallRigs] |}).
Proof.
  intros [Hr|(t & r & Hr & Ht)]; run_refresh; rewrite Hr; [reflexivity|].
  rewrite ltb_window. apply N.ltb_ge in Ht. rewrite Ht. reflexivity.
Qed.

(** The rigs call returns inside the window: the outcome is decided by the
    account call. *)
Lemma refresh_rigs_returns self w t1 rigs :
  get_rigs_data (_api self) = Completes t1 (Ok rigs) ->
  (t1 < 10)%N ->
  _async_update_data self w
  = let w1 := {| now := now w + t1;
                 trace := trace w ++ [CallRigs; LogDebug rigs; CallAccount (_fiat self)] |} in
    match get_account_data (_api self) (_fiat self) with
    | Completes t2 r =>
        if (t1 + t2 <? 10)%N then
          (match r with
           | Ok account => Ok (snapshot rigs account)
           | Raise e => Raise (reraised e)
           end,
           {| now := now w + t1 + t2; trace := trace w1 |})
        else
          (Raise (UpdateFailed ("Error communicating with API: " ++ exc_str TimeoutError)
                    TimeoutError),
           {| now := N.max (now w + t1) (now w + 10); trace := trace w1 |})
    | Hangs =>
        (Raise (UpdateFailed ("Error communicating with API: " ++ exc_str TimeoutError)
                  TimeoutError),
         {| now := N.max (now w + t1) (now w + 10); trace := trace w1 |})
    end.
Proof.
  intros Hr Ht. run_refresh. rewrite Hr, ltb_window.
  apply N.ltb_lt in Ht. rewrite Ht. cbn [now trace].
  rewrite <- !app_assoc. cbn [app].
  destruct (get_account_data (_api self) (_fiat self)) as [t2 r|]; [|reflexivity].
  rewrite <- N.add_assoc, ltb_window.
  destruct (t1 + t2 <? 10)%N; [|reflexivity].
  rewrite N.add_assoc. destruct r as [account|e]; [reflexivity|].
  unfold reraised. destruct (isinstance_Exception e); reflexivity.
Qed.

Lemma times_out_refresh self w :
  times_out self = true ->
  fst (_async_update_data self w)
  = Raise (UpdateFailed ("Error communicating with API: " ++ exc_str TimeoutError)
             TimeoutError).
Proof.
  unfold times_out. intros H.
  destruct (get_rigs_data (_api self)) as [t1 r|] eqn:Hr.
  - destruct (N.ltb_spec t1 10) as [Ht|Ht].
    + destruct r as [rigs|e]; [|discriminate H].
      rewrite (refresh_rigs_returns _ w _ _ Hr Ht). cbv zeta.
      destruct (get_account_data (_api self) (_fiat self)) as [t2 r2|];
        [|reflexivity].
      destruct (t1 + t2 <? 10)%N; [discriminate H|reflexivity].
    + rewrite (refresh_rigs_timeout self w); [reflexivity|]. right. eauto.
  - rewrite (refresh_rigs_timeout self w); [reflexivity|]. left. exact Hr.
Qed.

(** C4, as stated, fails: a rigs call that is cancelled raises
    CancelledError, which is not an [Exception]; the refresh lets it through
    as it is, so something other than UpdateFailed leaves the refresh. *)
Lemma refresh_raises_other_than_UpdateFailed :
  ~ (forall (self : coordinator) (w : world) (e : exc),
        fst (_async_update_data self w) = Raise e ->
        exists msg cause, e = UpdateFailed msg cause).
Proof.
  intros H.
  destruct (H (__init__ api_cancelled 5 None) w0 CancelledError eq_refl)
    as (msg & cause & E).
  discriminate E.
Qed.

(** C4 (amended): an instance of [Exception] raised by the rigs call or by
    the account call, and the timeout of the 10-unit window, each make the
    refresh raise UpdateFailed, with a message that ends in the description
    of the original error and with that error as its cause; an error outside
    [Exception] raised by either call leaves the refresh as it is; and
    nothing else is ever raised by a refresh. *)
Theorem refresh_wraps_exceptions (self : coordinator) (w : world) :
  (forall t e,
      get_rigs_data (_api self) = Completes t (Raise e) -> (t < 10)%N ->
      isinstance_Exception e = true ->
      fst (_async_update_data self w)
      = Raise (UpdateFailed ("Error communicating with API: " ++ exc_str e) e))
  /\ (forall t1 rigs t2 e,
         get_rigs_data (_api self) = Completes t1 (Ok rigs) ->
         get_account_data (_api self) (_fiat self) = Completes t2 (Raise e) ->
         (t1 + t2 < 10)%N ->
         isinstance_Exception e = true ->
         fst (_async_update_data self w)
         = Raise (UpdateFailed ("Error communicating with API: " ++ exc_str e) e))
  /\ (times_out self = true ->
         fst (_async_update_data self w)
         = Raise (UpdateFailed ("Error communicating with API: " ++ exc_str TimeoutError)
                    TimeoutError))
  /\ (forall t e,
         get_rigs_data (_api self) = Completes t (Raise e) -> (t < 10)%N ->
         isinstance_Exception e = false ->
         fst (_async_update_data self w) = Raise e)
  /\ (forall t1 rigs t2 e,
         get_rigs_data (_api self) = Completes t1 (Ok rigs) ->
         get_account_data (_api self) (_fiat self) = Completes t2 (Raise e) ->
         (t1 + t2 < 10)%N ->
         isinstance_Exception e = false ->
         fst (_async_update_data self w) = Raise e)
  /\ (forall e,
         fst (_async_update_data self w) = Raise e ->
         exists err,
           cause_of self err
           /\ (isinstance_Exception err = true
               /\ e = UpdateFailed ("Error communicating with API: " ++ exc_str err) err
               \/ isinstance_Exception err = false /\ e = err)).
Proof.
  assert (Hrig : forall t e,
             get_rigs_data (_api self) = Completes t (Raise e) -> (t < 10)%N ->
             fst (_async_update_data self w) = Raise (reraised e)).
  { intros t e Hr Ht. rewrite (refresh_rigs_raises _ w _ _ Hr Ht). reflexivity. }
  assert (Hacc : forall t1 rigs t2 e,
             get_rigs_data (_api self) = Completes t1 (Ok rigs) ->
             get_account_data (_api self) (_fiat self) = Completes t2 (Raise e) ->
             (t1 + t2 < 10)%N ->
             fst (_async_update_data self w) = Raise (reraised e)).
  { intros t1 rigs t2 e Hr Ha Ht.
    assert (Ht1 : (t1 < 10)%N) by lia.
    rewrite (refresh_rigs_returns _ w _ _ Hr Ht1). cbv zeta. rewrite Ha.
    apply N.ltb_lt in Ht. rewrite Ht. reflexivity. }
  split; [|split; [|split; [|split; [|split]]]].
  - intros t e Hr Ht He. rewrite (Hrig _ _ Hr Ht). unfold reraised.
    rewrite He. reflexivity.
  - intros t1 rigs t2 e Hr Ha Ht He. rewrite (Hacc _ _ _ _ Hr Ha Ht).
    unfold reraised. rewrite He. reflexivity.
  - apply times_out_refresh.
  - intros t e Hr Ht He. rewrite (Hrig _ _ Hr Ht). unfold reraised.
    rewrite He. reflexivity.
  - intros t1 rigs t2 e Hr Ha Ht He. rewrite (Hacc _ _ _ _ Hr Ha Ht).
    unfold reraised. rewrite He. reflexivity.
  - intros e He.
    assert (Hre : forall err, cause_of self err -> e = reraised err ->
              exists err0, cause_of self err0
                /\ (isinstance_Exception err0 = true
                    /\ e = UpdateFailed ("Error communicating with API: "
                                           ++ exc_str err0) err0
                    \/ isinstance_Exception err0 = false /\ e = err0)).
    { intros err Hc E. exists err. split; [exact Hc|]. unfold reraised in E.
      destruct (isinstance_Exception err); [left|right]; auto. }
    destruct (times_out self) eqn:Hto.
    + rewrite (times_out_refresh _ w Hto) in He. injection He as <-.
      exists TimeoutError. split; [constructor|left; split; reflexivity].
    + unfold times_out in Hto.
      destruct (get_rigs_data (_api self)) as [t1 r|] eqn:Hr; [|discriminate Hto].
      destruct (N.ltb_spec t1 10) as [Ht|Ht]; [|discriminate Hto].
      destruct r as [rigs|e1].
      * destruct (get_account_data (_api self) (_fiat self)) as [t2 r2|] eqn:Ha;
          [|discriminate Hto].
        destruct (N.ltb_spec (t1 + t2) 10) as [Ht2|Ht2]; [|discriminate Hto].
        destruct r2 as [account|e2].
        -- rewrite (refresh_rigs_returns _ w _ _ Hr Ht) in He. cbv zeta in He.
           rewrite Ha in He. apply N.ltb_lt in Ht2. rewrite Ht2 in He.
           discriminate He.
        -- rewrite (Hacc _ _ _ _ eq_refl eq_refl Ht2) in He. injection He as <-.
           apply (Hre e2); [exact (cause_account _ _ _ Ha)|reflexivity].
      * rewrite (Hrig _ _ eq_refl Ht) in He. injection He as <-.
        apply (Hre e1); [exact (cause_rigs _ _ _ Hr)|reflexivity].
Qed.

Lemma refresh_wraps_exceptions_witness :
  fst (_async_update_data (__init__ api_account_down 5 None) w0)
  = Raise (UpdateFailed "Error communicating with API: HTTP 500"
             (Exc "ClientError" "HTTP 500")).
Proof.
  destruct (refresh_wraps_exceptions (__init__ api_account_down 5 None) w0)
    as (_ & H & _).
  exact (H 2%N sample_rigs 3%N (Exc "ClientError" "HTTP 500")
           eq_refl eq_refl eq_refl eq_refl).
Defined.

(** C5: when both calls return inside the window, the refresh returns the
    snapshot whose [rigs] entry is the result of the rigs call and whose
    [account] entry is the result of the account call, and the coordinator
    then holds that snapshot whatever it held before. *)
Theorem refresh_success_snapshot (self : coordinator) (w : world)
  (t1 t2 : N) (rigs account : value) :
  get_rigs_data (_api self) = Completes t1 (Ok rigs) ->
  get_account_data (_api self) (_fiat self) = Completes t2 (Ok account) ->
  (t1 + t2 < 10)%N ->
  fst (_async_update_data self w) = Ok (snapshot rigs account)
  /\ snapshot rigs account = VDict [(RIGS_OBJ, rigs); (ACCOUNT_OBJ, account)]
  /\ field (snapshot rigs account) RIGS_OBJ = rigs
  /\ field (snapshot rigs account) ACCOUNT_OBJ = account
  /\ data (fst (fst (async_refresh self w))) = Some (snapshot rigs account).
Proof.
  intros Hr Ha Ht.
  assert (Ht1 : (t1 < 10)%N) by lia.
  assert (E : _async_update_data self w
              = (Ok (snapshot rigs account),
                 {| now := now w + t1 + t2;
                    trace := trace w ++ [CallRigs; LogDebug rigs; CallAccount (_fiat self)] |})).
  { rewrite (refresh_rigs_returns _ w _ _ Hr Ht1). cbv zeta. rewrite Ha.
    apply N.ltb_lt in Ht. rewrite Ht. reflexivity. }
  repeat split; try reflexivity.
  - rewrite E. reflexivity.
  - unfold async_refresh. rewrite E. reflexivity.
Qed.

Lemma refresh_success_snapshot_witness :
  fst (_async_update_data (__init__ api_ok 5 None) w0)
  = Ok (snapshot sample_rigs sample_account).
Proof.
  apply (proj1 (refresh_success_snapshot (__init__ api_ok 5 None) w0 3 4
                  sample_rigs sample_account eq_refl eq_refl eq_refl)).
Defined.

Example refresh_slow_client :
  _async_update_data (__init__ api_slow 5 (Some "EUR")) w0
  = (Raise (UpdateFailed "Error communicating with API: " TimeoutError),
     {| now := 110;
        trace := [CallRigs; LogDebug sample_rigs; CallAccount "EUR"] |}).
Proof. reflexivity. Qed.

(** The trace of a refresh: the rigs call alone, or the rigs call, the debug
    record of its result and the account call. *)
Lemma refresh_trace (self : coordinator) (w : world) :
  (trace (snd (_async_update_data self w)) = (trace w ++ [CallRigs])%list
   /\ forall t1 rigs,
        get_rigs_data (_api self) = Completes t1 (Ok rigs) -> (10 <= t1)%N)
  \/ exists t1 rigs,
       get_rigs_data (_api self) = Completes t1 (Ok rigs) /\ (t1 < 10)%N
       /\ trace (snd (_async_update_data self w))
          = (trace w ++ [CallRigs; LogDebug rigs; CallAccount (_fiat self)])%list.
Proof.
  destruct (get_rigs_data (_api self)) as [t1 r|] eqn:Hr.
  - destruct (N.ltb_spec t1 10) as [Ht|Ht].
    + destruct r as [rigs|e].
      * right. exists t1, rigs. repeat split; [exact Ht|].
        rewrite (refresh_rigs_returns _ w _ _ Hr Ht). cbv zeta.
        destruct (get_account_data (_api self) (_fiat self)) as [t2 r2|];
          [destruct (t1 + t2 <? 10)%N|]; reflexivity.
      * left. rewrite (refresh_rigs_raises _ w _ _ Hr Ht).
        split; [reflexivity|]. intros ? ? [=].
    + left. rewrite (refresh_rigs_timeout self w) by (right; eauto).
      split; [reflexivity|]. intros ? ? [= <- _]. exact Ht.
  - left. rewrite (refresh_rigs_timeout self w) by (left; exact Hr).
    split; [reflexivity|]. intros ? ? [=].
Qed.




(** C10, as stated, fails: when the rigs call raises CancelledError the
    account call is not made, but the refresh does not fail with
    UpdateFailed: the error leaves it as it is. *)
Lemma rigs_failure_not_always_UpdateFailed :
  ~ (forall (self : coordinator) (w : world) (t : N) (e : exc),
        get_rigs_data (_api self) = Completes t (Raise e) ->
        exists msg cause,
          fst (_async_update_data self w) = Raise (UpdateFailed msg cause)).
Proof.
  intros H.
  destruct (H (__init__ api_cancelled 5 None) w0 1%N CancelledError eq_refl)
    as (msg & cause & E).
  discriminate E.
Qed.

(** C10 (amended): a refresh makes the rigs call first.  When that call has
    returned inside the window, the refresh records its result and then
    makes the account call, which starts when the rigs call has ended, so
    that the two durations add up.  In every other case the rigs call is the
    only call made.  In particular, when the rigs call raises, the account
    call is not made and the refresh fails: with UpdateFailed when the error
    is an instance of [Exception] or the window has elapsed, with the error
    itself otherwise. *)
Theorem rigs_fetch_precedes_account_fetch (self : coordinator) (w : world) :
  (forall t1 rigs,
      get_rigs_data (_api self) = Completes t1 (Ok rigs) -> (t1 < 10)%N ->
      trace (snd (_async_update_data self w))
      = (trace w ++ [CallRigs; LogDebug rigs; CallAccount (_fiat self)])%list)
  /\ (forall t1 rigs t2 r,
         get_rigs_data (_api self) = Completes t1 (Ok rigs) ->
         get_account_data (_api self) (_fiat self) = Completes t2 r ->
         (t1 + t2 < 10)%N ->
         now (snd (_async_update_data self w)) = (now w + t1 + t2)%N)
  /\ ((forall t1 rigs,
          get_rigs_data (_api self) = Completes t1 (Ok rigs) -> (10 <= t1)%N) ->
      trace (snd (_async_update_data self w)) = (trace w ++ [CallRigs])%list)
  /\ (forall t e,
         get_rigs_data (_api self) = Completes t (Raise e) ->
         trace (snd (_async_update_data self w)) = (trace w ++ [CallRigs])%list
         /\ (isinstance_Exception e = true \/ (10 <= t)%N ->
             exists msg cause,
               fst (_async_update_data self w) = Raise (UpdateFailed msg cause))
         /\ (isinstance_Exception e = false -> (t < 10)%N ->
             fst (_async_update_data self w) = Raise e)).
Proof.
  split; [|split; [|split]].
  - intros t1 rigs Hr Ht.
    rewrite (refresh_rigs_returns _ w _ _ Hr Ht). cbv zeta.
    destruct (get_account_data (_api self) (_fiat self)) as [t2 r2|];
      [destruct (t1 + t2 <? 10)%N|]; reflexivity.
  - intros t1 rigs t2 r Hr Ha Ht.
    assert (Ht1 : (t1 < 10)%N) by lia.
    rewrite (refresh_rigs_returns _ w _ _ Hr Ht1). cbv zeta. rewrite Ha.
    apply N.ltb_lt in Ht. rewrite Ht. reflexivity.
  - intros Hlate.
    destruct (refresh_trace self w) as [[E _]|(t1 & rigs & Hr & Ht & _)];
      [exact E|].
    specialize (Hlate _ _ Hr). lia.
  - intros t e Hr. destruct (N.ltb_spec t 10) as [Ht|Ht].
    + rewrite (refresh_rigs_raises _ w _ _ Hr Ht). cbn [fst snd trace].
      split; [reflexivity|]. unfold reraised. split.
      * intros [He|Hlate]; [|lia]. rewrite He. do 2 eexists. reflexivity.
      * intros He _. rewrite He. reflexivity.
    + rewrite (refresh_rigs_timeout self w) by (right; eauto).
      cbn [fst snd trace]. split; [reflexivity|]. split.
      * intros _. do 2 eexists. reflexivity.
      * intros _ Hlt. lia.
Qed.

Lemma rigs_fetch_precedes_account_fetch_witness :
  trace (snd (_async_update_data (__init__ api_account_down 5 None) w0))
  = [CallRigs; LogDebug sample_rigs; CallAccount "USD"]
  /\ trace (snd (_async_update_data (__init__ api_rigs_down 5 None) w0))
     = [CallRigs].
Proof.
  split.
  - exact (proj1 (rigs_fetch_precedes_account_fetch
                    (__init__ api_account_down 5 None) w0)
             2%N sample_rigs eq_refl eq_refl).
  - destruct (rigs_fetch_precedes_account_fetch (__init__ api_rigs_down 5 None) w0)
      as (_ & _ & _ & H).
    exact (proj1 (H 1%N (Exc "ClientError" "connection refused") eq_refl)).
Defined.

(** ** Further properties of a refresh *)

Lemma max_deadline (n t : N) : (t <= 10)%N -> N.max (n + t) (n + 10) = (n + 10)%N.
Proof. intros H. apply N.max_r. lia. Qed.

(** A refresh does the same thing whenever it is started: its outcome, the
    time it takes (at most the 10 units of the window) and the events it
    adds after those already recorded depend neither on the clock nor on
    what was recorded before. *)
Theorem refresh_uniform (self : coordinator) :
  exists (r : result value) (dt : N) (evs : list event),
    (dt <= 10)%N
    /\ forall w,
         _async_update_data self w
         = (r, {| now := now w + dt; trace := trace w ++ evs |}).
Proof.
  destruct (get_rigs_data (_api self)) as [t1 r1|] eqn:Hr.
  - destruct (N.ltb_spec t1 10) as [Ht|Ht].
    + destruct r1 as [rigs|e].
      * destruct (get_account_data (_api self) (_fiat self)) as [t2 r2|] eqn:Ha.
        -- destruct (N.ltb_spec (t1 + t2) 10) as [Ht2|Ht2].
           ++ eexists _, (t1 + t2)%N, _. split; [lia|]. intros w.
              rewrite (refresh_rigs_returns _ w _ _ Hr Ht). cbv zeta.
              rewrite Ha. apply N.ltb_lt in Ht2. rewrite Ht2.
              rewrite N.add_assoc. reflexivity.
           ++ eexists _, 10%N, _. split; [lia|]. intros w.
              rewrite (refresh_rigs_returns _ w _ _ Hr Ht). cbv zeta.
              rewrite Ha. apply N.ltb_ge in Ht2. rewrite Ht2.
              rewrite max_deadline by lia. reflexivity.
        -- eexists _, 10%N, _. split; [lia|]. intros w.
           rewrite (refresh_rigs_returns _ w _ _ Hr Ht). cbv zeta.
           rewrite Ha, max_deadline by lia. reflexivity.
      * eexists _, t1, _. split; [lia|]. intros w.
        rewrite (refresh_rigs_raises _ w _ _ Hr Ht). reflexivity.
    + eexists _, 10%N, _. split; [lia|]. intros w.
      rewrite (refresh_rigs_timeout self w) by (right; eauto).
      rewrite (N.max_r (now w) (now w + 10)) by lia. reflexivity.
  - eexists _, 10%N, _. split; [lia|]. intros w.
    rewrite (refresh_rigs_timeout self w) by (left; exact Hr).
    rewrite (N.max_r (now w) (now w + 10)) by lia. reflexivity.
Qed.

(** A refresh that runs into the deadline ends exactly when the window
    closes; every other refresh, failed or not, ends before that. *)
Theorem refresh_elapsed (self : coordinator) (w : world) :
  (times_out self = true ->
   now (snd (_async_update_data self w)) = (now w + 10)%N)
  /\ (times_out self = false ->
      (now w <= now (snd (_async_update_data self w)) < now w + 10)%N).
Proof.
  unfold times_out.
  destruct (get_rigs_data (_api self)) as [t1 r1|] eqn:Hr.
  - destruct (N.ltb_spec t1 10) as [Ht|Ht].
    + destruct r1 as [rigs|e].
      * rewrite (refresh_rigs_returns _ w _ _ Hr Ht). cbv zeta.
        destruct (get_account_data (_api self) (_fiat self)) as [t2 r2|].
        -- destruct (N.ltb_spec (t1 + t2) 10) as [Ht2|Ht2]; cbn [negb snd now];
             (split; intros H; [try discriminate H|try discriminate H]).
           ++ lia.
           ++ apply max_deadline. lia.
        -- cbn [snd now]. split; intros H; [|discriminate H].
           apply max_deadline. lia.
      * rewrite (refresh_rigs_raises _ w _ _ Hr Ht). cbn [snd now].
        split; intros H; [discriminate H|lia].
    + rewrite (refresh_rigs_timeout self w) by (right; eauto). cbn [snd now].
      split; intros H; [|discriminate H]. apply N.max_r. lia.
  - rewrite (refresh_rigs_timeout self w) by (left; exact Hr). cbn [snd now].
    split; intros H; [|discriminate H]. apply N.max_r. lia.
Qed.

Lemma refresh_elapsed_witness :
  now (snd (_async_update_data (__init__ api_slow 5 None) w0)) = 110%N.
Proof.
  exact (proj1 (refresh_elapsed (__init__ api_slow 5 None) w0) eq_refl).
Defined.

(** The debug record of the rigs response is written exactly when the rigs
    call has returned inside the window, whatever the account call then
    does, and it holds the value that call returned. *)
Theorem debug_record_of_rigs (self : coordinator) (w : world) (rigs : value) :
  In (LogDebug rigs) (trace (snd (_async_update_data self w)))
  <-> In (LogDebug rigs) (trace w)
      \/ exists t1,
           get_rigs_data (_api self) = Completes t1 (Ok rigs) /\ (t1 < 10)%N.
Proof.
  destruct (refresh_trace self w) as [[E Hno]|(t1 & r & Hr & Ht & E)];
    rewrite E; split.
  - intros H. apply in_app_or in H as [H|H]; [left; exact H|].
    simpl in H. destruct H as [H|[]]. discriminate H.
  - intros [H|(t1 & Hr & Ht)]; [apply in_or_app; left; exact H|].
    specialize (Hno _ _ Hr). lia.
  - intros H. apply in_app_or in H as [H|H]; [left; exact H|].
    simpl in H. destruct H as [H|[H|[H|[]]]]; try discriminate H.
    injection H as <-. right. exists t1. split; assumption.
  - intros [H|(t1' & Hr' & _)]; apply in_or_app; [left; exact H|].
    right. rewrite Hr in Hr'. injection Hr' as _ <-. simpl. tauto.
Qed.

Lemma debug_record_of_rigs_witness :
  In (LogDebug sample_rigs)
     (trace (snd (_async_update_data (__init__ api_slow 5 None) w0))).
Proof.
  apply (proj2 (debug_record_of_rigs (__init__ api_slow 5 None) w0 sample_rigs)).
  right. exists 6%N. split; reflexivity.
Defined.

End CoordinatorFacts.

(** * Properties of the resolver on shared objects *)

Module HeapFacts.

(** The resolver on values, under names that the store's do not hide. *)
Local Abbreviation pure_build_candidates := build_candidates (only parsing).
Local Abbreviation pure_resolve_rig_name := resolve_rig_name (only parsing).
Local Abbreviation pure_first_normalized := first_normalized (only parsing).
Local Abbreviation pure_normalize := _normalize (only parsing).

Import Heap.
Local Open Scope list_scope.

(** ** The store only grows *)

Lemma extends_refl (h : heap) : extends h h.
Proof. intros a o H. exact H. Qed.

Lemma extends_app (hb h ex : heap) : extends hb h -> extends hb (h ++ ex).
Proof.
  intros H a o Ha. rewrite nth_error_app1; [exact (H a o Ha)|].
  apply nth_error_Some. rewrite (H a o Ha). discriminate.
Qed.

Lemma extends_trans (h1 h2 h3 : heap) :
  extends h1 h2 -> extends h2 h3 -> extends h1 h3.
Proof. intros H12 H23 a o Ha. exact (H23 a o (H12 a o Ha)). Qed.

Lemma nth_error_fresh (h ex : heap) (o : obj) :
  nth_error (h ++ o :: ex) (List.length h) = Some o.
Proof. rewrite nth_error_app2, Nat.sub_diag by lia. reflexivity. Qed.

Lemma update_fresh (h ex : heap) (o o' : obj) :
  update (h ++ o :: ex) (List.length h) o' = (h ++ o' :: ex)%list.
Proof. induction h as [|x h IH]; simpl; [reflexivity|]. rewrite IH. reflexivity. Qed.

(** ** Values in the store *)

Lemma Forall2_Forall_impl {A B : Type} (P : A -> Prop) (R R' : A -> B -> Prop)
  (l : list A) (l' : list B) :
  Forall P l -> (forall x y, P x -> R x y -> R' x y) ->
  Forall2 R l l' -> Forall2 R' l l'.
Proof.
  intros HP Himp H2. induction H2 as [|x y l l' Hxy _ IH]; constructor.
  - apply Himp; [exact (Forall_inv HP)|exact Hxy].
  - apply IH. exact (Forall_inv_tail HP).
Qed.

(** A value held by a store is held by every store that extends it. *)
Lemma represents_extends (hb h : heap) (pv : value) :
  extends hb h -> forall v, Heap.represents hb pv v -> Heap.represents h pv v.
Proof.
  intros He. induction pv as [| | | |xs IH|kvs IH] using value_ind_nested;
    intros v Hv; inversion Hv; subst; try constructor.
  - apply (rep_List h a items); [apply He; assumption|].
    eapply Forall2_Forall_impl; [exact IH| |eassumption].
    intros x y Hx Hxy. exact (Hx y Hxy).
  - apply (rep_Dict h a hkvs); [apply He; assumption|].
    eapply Forall2_Forall_impl; [exact IH| |eassumption].
    intros x y Hx [Hk Hxy]. split; [exact Hk|exact (Hx _ Hxy)].
Qed.

Lemma represents_same_str (h : heap) (pv : value) (v : hval) :
  Heap.represents h pv v -> same_str pv v.
Proof. intros H. inversion H; subst; simpl; try reflexivity; discriminate. Qed.

(** ** The reading operations *)

Lemma truthy_rep (hb h : heap) (pv : value) (v : hval) :
  extends hb h -> Heap.represents hb pv v ->
  Heap.truthy v h = (Ok (Py.truthy pv), h).
Proof.
  intros He Hv. inversion Hv; subst; try reflexivity.
  - unfold Heap.truthy, mbind, load. rewrite (He _ _ H).
    match goal with H2 : Forall2 _ _ _ |- _ => inversion H2; reflexivity end.
  - unfold Heap.truthy, mbind, load. rewrite (He _ _ H).
    match goal with H2 : Forall2 _ _ _ |- _ => inversion H2; reflexivity end.
Qed.

Lemma type_name_rep (hb h : heap) (pv : value) (v : hval) :
  extends hb h -> Heap.represents hb pv v ->
  Heap.type_name v h = (Ok (Py.type_name pv), h).
Proof.
  intros He Hv. inversion Hv; subst; try reflexivity;
    unfold Heap.type_name, mbind, load; rewrite (He _ _ H); reflexivity.
Qed.

Lemma isinstance_dict_rep (hb h : heap) (pv : value) (v : hval) :
  extends hb h -> Heap.represents hb pv v ->
  Heap.isinstance_dict v h = (Ok (Py.isinstance_dict pv), h).
Proof.
  intros He Hv. inversion Hv; subst; try reflexivity;
    unfold Heap.isinstance_dict, mbind, load; rewrite (He _ _ H); reflexivity.
Qed.

Lemma dict_lookup_rep (hb : heap) (kvs : list (string * value))
  (hkvs : list (string * hval)) (k : string) :
  Forall2 (fun kv hkv => fst kv = fst hkv /\ Heap.represents hb (snd kv) (snd hkv))
          kvs hkvs ->
  match Py.dict_lookup kvs k, Heap.dict_lookup hkvs k with
  | Some pv, Some v => Heap.represents hb pv v
  | None, None => True
  | _, _ => False
  end.
Proof.
  induction 1 as [|[k1 pv] [k2 v] kvs hkvs [Hk Hv] _ IH]; simpl; [exact I|].
  simpl in Hk, Hv. subst k2. destruct (String.eqb k1 k); [exact Hv|exact IH].
Qed.

(** [o.get(k, default)] on the store does what it does on the value. *)
Lemma get_default_rep (hb h : heap) (pv : value) (v : hval) (k : string)
  (pd : value) (d : hval) :
  extends hb h -> Heap.represents hb pv v ->
  (exists e, Py.get_default pv k pd = Raise e
             /\ Heap.get_default v k d h = (Raise e, h))
  \/ (exists kvs pr r, pv = VDict kvs /\ Py.dict_lookup kvs k = Some pr
                       /\ Heap.get_default v k d h = (Ok r, h)
                       /\ Heap.represents hb pr r)
  \/ (exists kvs, pv = VDict kvs /\ Py.dict_lookup kvs k = None
                  /\ Heap.get_default v k d h = (Ok d, h)).
Proof.
  intros He Hv. inversion Hv; subst.
  - left. eexists. split; reflexivity.
  - left. eexists. split; reflexivity.
  - left. eexists. split; reflexivity.
  - left. eexists. split; reflexivity.
  - left. eexists. split; [reflexivity|].
    unfold Heap.get_default, mbind, load. rewrite (He _ _ H). reflexivity.
  - right. pose proof (dict_lookup_rep hb kvs hkvs k H0) as Hl.
    unfold Heap.get_default, mbind, load. rewrite (He _ _ H).
    destruct (Py.dict_lookup kvs k) as [pr|] eqn:Ep;
      destruct (Heap.dict_lookup hkvs k) as [r|] eqn:Er; try contradiction.
    + left. exists kvs, pr, r. auto.
    + right. exists kvs. auto.
Qed.

Lemma get_rep (hb h : heap) (pv : value) (v : hval) (k : string) :
  extends hb h -> Heap.represents hb pv v ->
  match Py.get pv k with
  | Ok pr => exists r, Heap.get v k h = (Ok r, h) /\ Heap.represents hb pr r
  | Raise e => Heap.get v k h = (Raise e, h)
  end.
Proof.
  intros He Hv. unfold Py.get, Heap.get.
  destruct (get_default_rep hb h pv v k VNone HNone He Hv)
    as [(e & Ep & Eh)|[(kvs & pr & r & -> & Ep & Eh & Hr)|(kvs & -> & Ep & Eh)]].
  - rewrite Ep. exact Eh.
  - simpl. rewrite Ep. exists r. auto.
  - simpl. rewrite Ep. exists HNone. split; [exact Eh|constructor].
Qed.

Lemma chars_rep (hb : heap) (s : pystr) :
  Forall2 (Heap.represents hb) (chars s) (map (fun c => HStr [c]) s).
Proof.
  unfold chars. induction s as [|c s IH]; simpl; constructor;
    [constructor|exact IH].
Qed.

Lemma dict_keys_rep (hb : heap) (kvs : list (string * value))
  (hkvs : list (string * hval)) :
  Forall2 (fun kv hkv => fst kv = fst hkv /\ Heap.represents hb (snd kv) (snd hkv))
          kvs hkvs ->
  Forall2 (Heap.represents hb)
          (map (fun kv => VStr (u (fst kv))) kvs)
          (map (fun kv => HStr (u (fst kv))) hkvs).
Proof.
  induction 1 as [|kv hkv kvs hkvs [Hk _] _ IH]; simpl; constructor;
    [rewrite Hk; constructor|exact IH].
Qed.

Lemma iter_rep (hb h : heap) (pv : value) (v : hval) :
  extends hb h -> Heap.represents hb pv v ->
  match Py.iter pv with
  | Ok pitems => exists items, Heap.iter v h = (Ok items, h)
                               /\ Forall2 (Heap.represents hb) pitems items
  | Raise e => Heap.iter v h = (Raise e, h)
  end.
Proof.
  intros He Hv. inversion Hv; subst; try reflexivity.
  - simpl. eexists. split; [reflexivity|apply chars_rep].
  - simpl. exists items. split; [|assumption].
    unfold mbind, load. rewrite (He _ _ H). reflexivity.
  - simpl. eexists. split.
    + unfold mbind, load. rewrite (He _ _ H). reflexivity.
    + apply dict_keys_rep. assumption.
Qed.

(** ** Defaults and the list of candidates *)

Lemma py_or_rep (hb h : heap) (pv : value) (v : hval) (o : obj) :
  extends hb h -> Heap.represents hb pv v ->
  (Py.truthy pv = true /\ Heap.py_or v (alloc o) h = (Ok v, h))
  \/ (Py.truthy pv = false
      /\ Heap.py_or v (alloc o) h = (Ok (HRef (List.length h)), h ++ [o])).
Proof.
  intros He Hv. unfold Heap.py_or, mbind. rewrite (truthy_rep _ _ _ _ He Hv).
  destruct (Py.truthy pv); [left|right]; split; reflexivity.
Qed.

Lemma or_dict_rep (hb h : heap) (pv : value) (v : hval) :
  extends hb h -> Heap.represents hb pv v ->
  exists v' ex,
    Heap.py_or v (alloc (ODict [])) h = (Ok v', h ++ ex)
    /\ Heap.represents (h ++ ex) (Py.py_or pv (VDict [])) v'.
Proof.
  intros He Hv. unfold Py.py_or.
  destruct (py_or_rep hb h pv v (ODict []) He Hv) as [[Ht E]|[Ht E]]; rewrite Ht.
  - exists v, []. rewrite app_nil_r. split; [exact E|].
    exact (represents_extends _ _ _ He _ Hv).
  - exists (HRef (List.length h)), [ODict []]. split; [exact E|].
    apply (rep_Dict _ _ []); [apply nth_error_fresh|constructor].
Qed.

Lemma extends_prefix (h ex : heap) : extends h (h ++ ex).
Proof. apply extends_app, extends_refl. Qed.

Lemma list_append_fresh (h1 rest : heap) (items : list hval) (x : hval) :
  list_append (HRef (List.length h1)) x (h1 ++ OList items :: rest)
  = (Ok tt, h1 ++ OList (items ++ [x]) :: rest).
Proof.
  unfold list_append, mbind, load, store.
  rewrite nth_error_fresh, update_fresh. reflexivity.
Qed.

Lemma reads_appends (h1 : heap) (m : M hval) (p : result value) :
  reads h1 m p ->
  appends h1 (mbind m (fun x => list_append (HRef (List.length h1)) x)) p.
Proof.
  intros H items rest. destruct (H items rest) as [rest' Hm]. exists rest'.
  unfold mbind. destruct p as [pr|e].
  - destruct Hm as (r & -> & Hs). exists r.
    rewrite list_append_fresh. auto.
  - rewrite Hm. reflexivity.
Qed.

Lemma get_reads (h1 : heap) (pv : value) (v : hval) (k : string) :
  Heap.represents h1 pv v -> reads h1 (Heap.get v k) (Py.get pv k).
Proof.
  intros Hv items rest. exists rest.
  pose proof (get_rep h1 (h1 ++ OList items :: rest) pv v k
                (extends_prefix _ _) Hv) as H.
  destruct (Py.get pv k) as [pr|e]; [|exact H].
  destruct H as (r & E & Hr). exists r. split; [exact E|].
  exact (represents_same_str _ _ _ Hr).
Qed.

(** A loop whose body appends one candidate per item appends them all, in
    order, or stops at the first item that raises. *)
Lemma for_each_appends {A B : Type} (R : A -> B -> Prop) (h1 : heap)
  (pxs : list A) (xs : list B) (body : B -> M unit) (fp : A -> result value) :
  Forall2 R pxs xs ->
  (forall px x, R px x -> appends h1 (body x) (fp px)) ->
  forall items rest, exists rest',
    match Py.mapM fp pxs with
    | Ok prs =>
        exists rs, for_each xs body (h1 ++ OList items :: rest)
                   = (Ok tt, h1 ++ OList (items ++ rs) :: rest')
                   /\ Forall2 same_str prs rs
    | Raise e =>
        exists items', for_each xs body (h1 ++ OList items :: rest)
                       = (Raise e, h1 ++ OList items' :: rest')
    end.
Proof.
  intros HR Hb. induction HR as [|px x pxs xs Hx _ IH]; intros items rest.
  - exists rest. simpl. exists []. rewrite app_nil_r. split; [reflexivity|constructor].
  - destruct (Hb px x Hx items rest) as [rest1 Hbx].
    change (for_each (x :: xs) body)
      with (mbind (body x) (fun _ => for_each xs body)).
    cbn [Py.mapM]. unfold mbind. destruct (fp px) as [pr|e]; cbn [Py.bind].
    + destruct Hbx as (r & -> & Hs).
      destruct (IH (items ++ [r]) rest1) as [rest2 Hxs].
      exists rest2. destruct (Py.mapM fp pxs) as [prs|e]; cbn [Py.bind].
      * destruct Hxs as (rs & -> & Hrs). exists (r :: rs).
        rewrite <- app_assoc. split; [reflexivity|constructor; assumption].
      * destruct Hxs as (items' & ->). exists items'. reflexivity.
    + exists rest1. rewrite Hbx. exists items. reflexivity.
Qed.

Lemma Forall2_eq_refl {A : Type} (l : list A) : Forall2 eq l l.
Proof. induction l; constructor; auto. Qed.

Lemma for_each_skip {A : Type} (xs : list A) (body : A -> M unit) (h : heap) :
  (forall x, body x h = (Ok tt, h)) -> for_each xs body h = (Ok tt, h).
Proof.
  intros H. induction xs as [|x xs IH]; [reflexivity|].
  simpl. unfold mbind. rewrite H. exact IH.
Qed.

Lemma mbind_ok {A B : Type} (m : M A) (k : A -> M B) (h h' : heap) (a : A) :
  m h = (Ok a, h') -> mbind m k h = k a h'.
Proof. intros E. unfold mbind. rewrite E. reflexivity. Qed.

Lemma mbind_raise {A B : Type} (m : M A) (k : A -> M B) (h h' : heap) (e : exc) :
  m h = (Raise e, h') -> mbind m k h = (Raise e, h').
Proof. intros E. unfold mbind. rewrite E. reflexivity. Qed.

Lemma mapM_get_rep (hb h : heap) (pv : value) (v : hval) (ks : list string) :
  extends hb h -> Heap.represents hb pv v ->
  match Py.mapM (Py.get pv) ks with
  | Ok prs => exists rs, Heap.mapM (Heap.get v) ks h = (Ok rs, h)
                         /\ Forall2 same_str prs rs
  | Raise e => Heap.mapM (Heap.get v) ks h = (Raise e, h)
  end.
Proof.
  intros He Hv. induction ks as [|k ks IH]; simpl.
  - exists []. split; [reflexivity|constructor].
  - pose proof (get_rep hb h pv v k He Hv) as Hk.
    destruct (Py.get pv k) as [pr|e]; cbn [Py.bind].
    + destruct Hk as (r & Ek & Hr). rewrite (mbind_ok _ _ _ _ _ Ek).
      destruct (Py.mapM (Py.get pv) ks) as [prs|e]; cbn [Py.bind].
      * destruct IH as (rs & Eks & Hrs). rewrite (mbind_ok _ _ _ _ _ Eks).
        exists (r :: rs). split; [reflexivity|].
        constructor; [exact (represents_same_str _ _ _ Hr)|exact Hrs].
      * rewrite (mbind_raise _ _ _ _ _ IH). reflexivity.
    + rewrite (mbind_raise _ _ _ _ _ Hk). reflexivity.
Qed.

(** [x or []] followed by the start of a loop over it. *)
Lemma or_list_iter (h1 rest : heap) (items : list hval) (pv : value) (v : hval) :
  Heap.represents h1 pv v ->
  exists v' rest',
    Heap.py_or v (alloc (OList [])) (h1 ++ OList items :: rest)
    = (Ok v', h1 ++ OList items :: rest')
    /\ match Py.iter (Py.py_or pv (VList [])) with
       | Ok pitems =>
           exists hitems,
             Heap.iter v' (h1 ++ OList items :: rest')
             = (Ok hitems, h1 ++ OList items :: rest')
             /\ Forall2 (Heap.represents h1) pitems hitems
       | Raise e =>
           Heap.iter v' (h1 ++ OList items :: rest')
           = (Raise e, h1 ++ OList items :: rest')
       end.
Proof.
  intros Hv. unfold Py.py_or.
  destruct (py_or_rep h1 (h1 ++ OList items :: rest) pv v (OList [])
              (extends_prefix _ _) Hv) as [[Ht E]|[Ht E]]; rewrite Ht.
  - exists v, rest. split; [exact E|].
    exact (iter_rep h1 _ pv v (extends_prefix _ _) Hv).
  - exists (HRef (List.length (h1 ++ OList items :: rest))), (rest ++ [OList []]).
    rewrite <- app_assoc in E. split; [exact E|].
    simpl. exists []. split; [|constructor].
    unfold Heap.iter, mbind, load.
    change (h1 ++ OList items :: rest ++ [OList []])
      with (h1 ++ (OList items :: rest) ++ [OList []]).
    rewrite app_assoc, nth_error_fresh. reflexivity.
Qed.

(** The body of the loop over [v4.devices]. *)
Lemma dsv_appends (h1 : heap) (pdev : value) (dev : hval) :
  Heap.represents h1 pdev dev ->
  appends h1
    (mbind (Heap.get dev "dsv") (fun dsv0 =>
     mbind (Heap.py_or dsv0 (alloc (ODict []))) (fun dsv =>
     mbind (Heap.get dsv "name") (fun x =>
     list_append (HRef (List.length h1)) x))))
    (Py.bind (Py.get pdev "dsv") (fun dsv0 =>
     Py.get (Py.py_or dsv0 (VDict [])) "name")).
Proof.
  intros Hd items rest.
  pose proof (get_rep h1 (h1 ++ OList items :: rest) pdev dev "dsv"
                (extends_prefix _ _) Hd) as H0.
  destruct (Py.get pdev "dsv") as [pd0|e]; cbn [Py.bind].
  2:{ exists rest. rewrite (mbind_raise _ _ _ _ _ H0). reflexivity. }
  destruct H0 as (d0 & E0 & Hd0). rewrite (mbind_ok _ _ _ _ _ E0).
  unfold Py.py_or.
  destruct (py_or_rep h1 (h1 ++ OList items :: rest) pd0 d0 (ODict [])
              (extends_prefix _ _) Hd0) as [[Ht E]|[Ht E]]; rewrite Ht;
    rewrite (mbind_ok _ _ _ _ _ E).
  - exists rest.
    pose proof (get_rep h1 (h1 ++ OList items :: rest) pd0 d0 "name"
                  (extends_prefix _ _) Hd0) as H1.
    destruct (Py.get pd0 "name") as [pn|e].
    + destruct H1 as (n & E1 & Hn). rewrite (mbind_ok _ _ _ _ _ E1).
      exists n. rewrite list_append_fresh.
      split; [reflexivity|exact (represents_same_str _ _ _ Hn)].
    + rewrite (mbind_raise _ _ _ _ _ H1). reflexivity.
  - exists (rest ++ [ODict []]).
    unfold Py.get, Py.get_default. cbn [Py.dict_lookup]. exists HNone.
    assert (E1 : Heap.get (HRef (List.length (h1 ++ OList items :: rest))) "name"
                   ((h1 ++ OList items :: rest) ++ [ODict []])
                 = (Ok HNone, (h1 ++ OList items :: rest) ++ [ODict []])).
    { unfold Heap.get, Heap.get_default, mbind, load.
      rewrite nth_error_fresh. reflexivity. }
    rewrite (mbind_ok _ _ _ _ _ E1), <- app_assoc.
    change ((OList items :: rest) ++ [ODict []])
      with (OList items :: rest ++ [ODict []]).
    rewrite list_append_fresh. split; [reflexivity|discriminate].
Qed.

(** [rig.get("devices", [])] followed by the start of the loop over it; the
    default list has just been created. *)
Lemma get_default_list_iter (h1 rest : heap) (items : list hval) (pv : value)
  (rig : hval) (k : string) :
  Heap.represents h1 pv rig ->
  match Py.get_default pv k (VList []) with
  | Raise e =>
      Heap.get_default rig k (HRef (List.length (h1 ++ OList items :: rest)))
        ((h1 ++ OList items :: rest) ++ [OList []])
      = (Raise e, (h1 ++ OList items :: rest) ++ [OList []])
  | Ok pd =>
      exists d,
        Heap.get_default rig k (HRef (List.length (h1 ++ OList items :: rest)))
          ((h1 ++ OList items :: rest) ++ [OList []])
        = (Ok d, (h1 ++ OList items :: rest) ++ [OList []])
        /\ match Py.iter pd with
           | Ok pitems =>
               exists hitems,
                 Heap.iter d ((h1 ++ OList items :: rest) ++ [OList []])
                 = (Ok hitems, (h1 ++ OList items :: rest) ++ [OList []])
                 /\ Forall2 (Heap.represents h1) pitems hitems
           | Raise e =>
               Heap.iter d ((h1 ++ OList items :: rest) ++ [OList []])
               = (Raise e, (h1 ++ OList items :: rest) ++ [OList []])
           end
  end.
Proof.
  intros Hv.
  assert (He : extends h1 ((h1 ++ OList items :: rest) ++ [OList []]))
    by (apply extends_app, extends_prefix).
  destruct (get_default_rep h1 _ pv rig k (VList [])
              (HRef (List.length (h1 ++ OList items :: rest))) He Hv)
    as [(e & Ep & Eh)|[(kvs & pr & r & -> & Ep & Eh & Hr)|(kvs & -> & Ep & Eh)]].
  - rewrite Ep. exact Eh.
  - simpl Py.get_default. rewrite Ep. exists r. split; [exact Eh|].
    exact (iter_rep h1 _ pr r He Hr).
  - simpl Py.get_default. rewrite Ep. eexists. split; [exact Eh|].
    simpl. exists []. split; [|constructor].
    unfold Heap.iter, mbind, load. rewrite nth_error_fresh. reflexivity.
Qed.

(** ** Collecting the candidates *)

Lemma collects_raise (h ex : heap) (e : exc) :
  collects h (Raise e, h ++ ex) (Raise e).
Proof. exists ex. reflexivity. Qed.

Ltac stop_raise H :=
  rewrite (mbind_raise _ _ _ _ _ H); rewrite <- ?app_assoc; apply collects_raise.

(** One loop of the collection: the pure side is split into its two
    outcomes and the store side is advanced. *)
Ltac run_loop L :=
  let rest := fresh "rest" in
  destruct L as [rest L];
  match type of L with
  | match ?p with _ => _ end =>
      let prs := fresh "prs" in
      let e := fresh "e" in
      destruct p as [prs|e]; cbn [Py.bind];
      [ let rs := fresh "rs" in
        let HF := fresh "HF" in
        destruct L as (rs & L & HF);
        rewrite (mbind_ok _ _ _ _ _ L); clear L
      | let items' := fresh "items'" in
        destruct L as (items' & L); stop_raise L ]
  end.

(** One [.get] of the collection, on a value held below [candidates]. *)
Ltac run_get pv v k Hrep :=
  match goal with
  | |- collects _ (mbind _ _ (?h1 ++ OList ?items :: ?rest)) _ =>
      let G := fresh "G" in
      pose proof (get_rep h1 (h1 ++ OList items :: rest) pv v k
                    (extends_prefix _ _) Hrep) as G;
      let pr := fresh "pr" in
      let e := fresh "e" in
      destruct (Py.get pv k) as [pr|e]; cbn [Py.bind]; [|stop_raise G];
      let r := fresh "r" in
      let Hr := fresh "Hr" in
      destruct G as (r & G & Hr); rewrite (mbind_ok _ _ _ _ _ G); clear G
  end.

Ltac run_append :=
  match goal with
  | |- collects _ (mbind (list_append _ ?x) _ (?h1 ++ OList ?items :: ?rest)) _ =>
      rewrite (mbind_ok _ _ _ _ _ (list_append_fresh h1 rest items x))
  end.

Lemma filter_const {A : Type} (b : bool) (l : list A) :
  filter (fun _ => b) l = if b then l else [].
Proof.
  induction l as [|x l IH]; simpl; [destruct b; reflexivity|].
  rewrite IH. destruct b; reflexivity.
Qed.

(** The loop over the keys of [group], which tests [isinstance(group, dict)]
    at every key. *)
Lemma group_loop (h1 : heap) (pg : value) (g : hval) :
  Heap.represents h1 pg g ->
  forall items rest, exists rest',
    match Py.mapM (Py.get pg) (filter (fun _ => Py.isinstance_dict pg) keys) with
    | Ok prs =>
        exists rs,
          for_each keys
            (fun key =>
               mbind (Heap.isinstance_dict g) (fun is_dict : bool =>
               if is_dict
               then mbind (Heap.get g key)
                          (fun x => list_append (HRef (List.length h1)) x)
               else ret tt))
            (h1 ++ OList items :: rest)
          = (Ok tt, h1 ++ OList (items ++ rs) :: rest')
          /\ Forall2 same_str prs rs
    | Raise e =>
        exists items',
          for_each keys
            (fun key =>
               mbind (Heap.isinstance_dict g) (fun is_dict : bool =>
               if is_dict
               then mbind (Heap.get g key)
                          (fun x => list_append (HRef (List.length h1)) x)
               else ret tt))
            (h1 ++ OList items :: rest)
          = (Raise e, h1 ++ OList items' :: rest')
    end.
Proof.
  intros Hg items rest. rewrite filter_const.
  destruct (Py.isinstance_dict pg) eqn:Hd.
  - apply (for_each_appends eq h1 keys keys _ (Py.get pg) (Forall2_eq_refl keys)).
    intros px x -> items0 rest0.
    rewrite (mbind_ok _ _ _ _ _
               (isinstance_dict_rep h1 _ pg g (extends_prefix _ _) Hg)), Hd.
    exact (reads_appends _ _ _ (get_reads h1 pg g x Hg) items0 rest0).
  - exists rest. cbn [Py.mapM]. exists []. rewrite app_nil_r.
    split; [|constructor].
    apply for_each_skip. intros x.
    rewrite (mbind_ok _ _ _ _ _
               (isinstance_dict_rep h1 _ pg g (extends_prefix _ _) Hg)), Hd.
    reflexivity.
Qed.

Lemma build_candidates_refines_from (hb h ex0 : heap) (pv : value) (rig : hval) :
  extends hb (h ++ ex0) -> Heap.represents hb pv rig ->
  collects h (Heap.build_candidates rig (h ++ ex0)) (pure_build_candidates pv).
Proof.
  intros He Hrig. unfold Heap.build_candidates, pure_build_candidates.
  cbv zeta.
  (* metadata = rig.get("metadata") or {} *)
  pose proof (get_rep hb _ pv rig "metadata" He Hrig) as G.
  destruct (Py.get pv "metadata") as [pm0|e]; cbn [Py.bind]; [|stop_raise G].
  destruct G as (m0 & E & Hm0). rewrite (mbind_ok _ _ _ _ _ E). clear E.
  destruct (or_dict_rep hb _ pm0 m0 He Hm0) as (metadata & ex1 & E & Hmeta).
  rewrite (mbind_ok _ _ _ _ _ E). clear E.
  apply (extends_app _ _ ex1) in He.
  (* group = rig.get("group") or {} *)
  pose proof (get_rep hb _ pv rig "group" He Hrig) as G.
  destruct (Py.get pv "group") as [pg0|e]; cbn [Py.bind]; [|stop_raise G].
  destruct G as (g0 & E & Hg0). rewrite (mbind_ok _ _ _ _ _ E). clear E.
  destruct (or_dict_rep hb _ pg0 g0 He Hg0) as (group & ex2 & E & Hgroup).
  rewrite (mbind_ok _ _ _ _ _ E). clear E.
  apply (extends_app _ _ ex2) in He.
  (* v4 = rig.get("v4") or {} *)
  pose proof (get_rep hb _ pv rig "v4" He Hrig) as G.
  destruct (Py.get pv "v4") as [pv40|e]; cbn [Py.bind]; [|stop_raise G].
  destruct G as (v40 & E & Hv40). rewrite (mbind_ok _ _ _ _ _ E). clear E.
  destruct (or_dict_rep hb _ pv40 v40 He Hv40) as (v4 & ex3 & E & Hv4).
  rewrite (mbind_ok _ _ _ _ _ E). clear E.
  apply (extends_app _ _ ex3) in He.
  (* mmv = v4.get("mmv") or {} *)
  pose proof (get_rep _ _ _ v4 "mmv" (extends_refl _) Hv4) as G.
  destruct (Py.get (Py.py_or pv40 (VDict [])) "mmv") as [pmmv0|e];
    cbn [Py.bind]; [|stop_raise G].
  destruct G as (mmv0 & E & Hmmv0). rewrite (mbind_ok _ _ _ _ _ E). clear E.
  destruct (or_dict_rep _ _ pmmv0 mmv0 (extends_refl _) Hmmv0)
    as (mmv & ex4 & E & Hmmv).
  rewrite (mbind_ok _ _ _ _ _ E). clear E.
  apply (extends_app _ _ ex4) in He.
  (* every value read so far is held by the store reached here *)
  apply (represents_extends _ _ _ He) in Hrig.
  apply (represents_extends _ (((((h ++ ex0) ++ ex1) ++ ex2) ++ ex3) ++ ex4))
    in Hmeta; [|do 3 apply extends_app; apply extends_refl].
  apply (represents_extends _ (((((h ++ ex0) ++ ex1) ++ ex2) ++ ex3) ++ ex4))
    in Hgroup; [|do 2 apply extends_app; apply extends_refl].
  apply (represents_extends _ (((((h ++ ex0) ++ ex1) ++ ex2) ++ ex3) ++ ex4))
    in Hv4; [|apply extends_app, extends_refl].
  clear He Hm0 Hg0 Hv40 Hmmv0 hb.
  assert (EX : exists ex, ((((h ++ ex0) ++ ex1) ++ ex2) ++ ex3) ++ ex4 = h ++ ex)
    by (eexists; rewrite <- !app_assoc; reflexivity).
  destruct EX as [ex EX]. rewrite EX in *. clear EX.
  set (pmeta := Py.py_or pm0 (VDict [])) in *.
  set (pgroup := Py.py_or pg0 (VDict [])) in *.
  set (pv4 := Py.py_or pv40 (VDict [])) in *.
  set (pmmv := Py.py_or pmmv0 (VDict [])) in *.
  (* candidates = [rig.get(key) for key in keys] *)
  pose proof (mapM_get_rep _ _ pv rig keys (extends_refl _) Hrig) as L.
  destruct (Py.mapM (Py.get pv) keys) as [c_rig|e]; cbn [Py.bind];
    [|stop_raise L].
  destruct L as (rs0 & L & HF0). rewrite (mbind_ok _ _ _ _ _ L). clear L.
  rewrite (mbind_ok _ _ _ _ _
             (eq_refl : alloc (OList rs0) (h ++ ex)
                        = (Ok (HRef (List.length (h ++ ex))),
                           (h ++ ex) ++ [OList rs0]))).
  (* candidates.extend(metadata.get(key) for key in keys) *)
  match goal with
  | |- collects _ (mbind (for_each _ ?body) _ (?h1 ++ OList ?items :: ?rest)) _ =>
      assert (L := for_each_appends eq h1 keys keys body (Py.get pmeta)
                     (Forall2_eq_refl keys)
                     (fun px x (E : px = x) =>
                        eq_ind_r (fun px => appends h1 (body x) (Py.get pmeta px))
                                 (reads_appends _ _ _ (get_reads h1 pmeta metadata x Hmeta))
                                 E)
                     items rest)
  end.
  run_loop L.
  (* candidates.extend(group.get(key) for key in keys if isinstance(group, dict)) *)
  match goal with
  | |- collects _ (mbind _ _ (?h1 ++ OList ?items :: ?rest)) _ =>
      assert (L := group_loop h1 pgroup group Hgroup items rest)
  end.
  run_loop L.
  (* candidates.append(rig.get("groupName")) *)
  run_get pv rig "groupName" Hrig. run_append.
  (* candidates.append(mmv.get("workerName")) *)
  run_get pmmv mmv "workerName" Hmmv. run_append.
  (* for os_value in v4.get("osv") or [] *)
  run_get pv4 v4 "osv" Hv4.
  match goal with
  | Hr : Heap.represents _ ?posv ?osv0
    |- collects _ (mbind (py_or ?osv0 _) _ (?h1 ++ OList ?items :: ?rest)) _ =>
      destruct (or_list_iter h1 rest items posv osv0 Hr) as (osv & rest_osv & E & L)
  end.
  rewrite (mbind_ok _ _ _ _ _ E). clear E.
  match type of L with
  | match ?p with _ => _ end =>
      destruct p as [pitems|e]; cbn [Py.bind]; [|stop_raise L]
  end.
  destruct L as (os_values & E & HFosv). rewrite (mbind_ok _ _ _ _ _ E). clear E.
  match goal with
  | |- collects _ (mbind (for_each _ ?body) _ (?h1 ++ OList ?items :: ?rest)) _ =>
      assert (L := for_each_appends (Heap.represents h1) h1 pitems os_values body
                     (fun os_value => Py.get os_value "value") HFosv
                     (fun px x Hx =>
                        reads_appends _ _ _ (get_reads h1 px x "value" Hx))
                     items rest)
  end.
  run_loop L.
  (* for device in v4.get("devices") or [] *)
  run_get pv4 v4 "devices" Hv4.
  match goal with
  | Hr : Heap.represents _ ?pdevs ?devs0
    |- collects _ (mbind (py_or ?devs0 _) _ (?h1 ++ OList ?items :: ?rest)) _ =>
      destruct (or_list_iter h1 rest items pdevs devs0 Hr)
        as (devs & rest_devs & E & L)
  end.
  rewrite (mbind_ok _ _ _ _ _ E). clear E.
  match type of L with
  | match ?p with _ => _ end =>
      destruct p as [pdevices|e]; cbn [Py.bind]; [|stop_raise L]
  end.
  destruct L as (v4_devices & E & HFdev). rewrite (mbind_ok _ _ _ _ _ E). clear E.
  match goal with
  | |- collects _ (mbind (for_each _ ?body) _ (?h1 ++ OList ?items :: ?rest)) _ =>
      assert (L := for_each_appends (Heap.represents h1) h1 pdevices v4_devices body
                     (fun device =>
                        Py.bind (Py.get device "dsv") (fun dsv0 =>
                        Py.get (Py.py_or dsv0 (VDict [])) "name"))
                     HFdev (fun px x Hx => dsv_appends h1 px x Hx)
                     items rest)
  end.
  run_loop L.
  (* for device in rig.get("devices", []) *)
  match goal with
  | |- collects _ (mbind (alloc _) _ ?hc) _ =>
      rewrite (mbind_ok _ _ _ _ _
                 (eq_refl : alloc (OList []) hc
                            = (Ok (HRef (List.length hc)), hc ++ [OList []])))
  end.
  match goal with
  | |- collects _ (mbind _ _ ((?h1 ++ OList ?items :: ?rest) ++ _)) _ =>
      pose proof (get_default_list_iter h1 rest items pv rig "devices" Hrig) as L
  end.
  destruct (Py.get_default pv "devices" (VList [])) as [pdevs1|e];
    cbn [Py.bind]; [|stop_raise L].
  destruct L as (devs1 & E & L). rewrite (mbind_ok _ _ _ _ _ E). clear E.
  destruct (Py.iter pdevs1) as [ptop|e]; cbn [Py.bind]; [|stop_raise L].
  destruct L as (devices & E & HFtop). rewrite (mbind_ok _ _ _ _ _ E). clear E.
  rewrite <- (app_assoc (h ++ ex)).
  match goal with
  | |- context [(OList ?items :: ?rest) ++ [OList []]] =>
      change ((OList items :: rest) ++ [OList []])
        with (OList items :: (rest ++ [OList []]))
  end.
  match goal with
  | |- collects _ (mbind (for_each _ ?body) _ (?h1 ++ OList ?items :: ?rest)) _ =>
      assert (L := for_each_appends (Heap.represents h1) h1 ptop devices body
                     (fun device => Py.get device "name") HFtop
                     (fun px x Hx =>
                        reads_appends _ _ _ (get_reads h1 px x "name" Hx))
                     items rest)
  end.
  run_loop L.
  (* the list is complete *)
  unfold ret, collects. do 3 eexists. split; [reflexivity|].
  rewrite <- !app_assoc.
  repeat first
    [ assumption
    | apply Forall2_app
    | constructor
    | (eapply represents_same_str; eassumption) ].
Qed.

Lemma build_candidates_refines (hb h : heap) (pv : value) (rig : hval) :
  extends hb h -> Heap.represents hb pv rig ->
  collects h (Heap.build_candidates rig h) (pure_build_candidates pv).
Proof.
  intros He Hrig.
  pose proof (build_candidates_refines_from hb h [] pv rig) as H.
  rewrite app_nil_r in H. exact (H He Hrig).
Qed.

(** ** The final loop and the fallback *)

Lemma normalize_same_str (pc : value) (c : hval) :
  same_str pc c ->
  match pure_normalize pc with
  | VStr n => Heap._normalize c = HStr n /\ n <> []
  | _ => Heap._normalize c = HNone /\ pure_normalize pc = VNone
  end.
Proof.
  intros Hs. destruct pc as [| | |s| |]; simpl in Hs;
    try (destruct c as [| | |s'|]; try (split; reflexivity);
         exfalso; exact (Hs s' eq_refl)).
  subst c. unfold pure_normalize, Heap._normalize. cbv zeta.
  destruct (strip s) as [|x tl]; [split; reflexivity|].
  cbn [Py.truthy negb].
  destruct (str_in (upper (x :: tl)) placeholder_tokens);
    [split; reflexivity|split; [reflexivity|discriminate]].
Qed.

Lemma first_normalized_same_str (cs : list value) (items : list hval) :
  Forall2 same_str cs items ->
  match pure_first_normalized cs with
  | Some (VStr n) => Heap.first_normalized items = Some (HStr n)
  | Some _ => False
  | None => Heap.first_normalized items = None
  end.
Proof.
  induction 1 as [|pc c cs items Hc _ IH]; [reflexivity|].
  cbn [pure_first_normalized Heap.first_normalized]. cbv zeta.
  pose proof (normalize_same_str pc c Hc) as Hn.
  destruct (pure_normalize pc) as [| | |n| |] eqn:En;
    try (destruct Hn as [Hh Hp]; try discriminate Hp; rewrite Hh; exact IH).
  destruct Hn as [-> Hne]. destruct n as [|x tl]; [contradiction|].
  reflexivity.
Qed.

(** The fallback [rig.get("rigId")]. *)
Lemma get_rigId_rep (hb h : heap) (pv : value) (rig : hval) :
  extends hb h -> Heap.represents hb pv rig ->
  Heap.get rig "rigId" h = (reflect hb rig (Py.get pv "rigId"), h).
Proof.
  intros He Hrig. unfold Heap.get, Py.get.
  destruct (get_default_rep hb h pv rig "rigId" VNone HNone He Hrig)
    as [(e & Ep & Eh)|[(kvs & pr & r & -> & Ep & Eh & Hr)|(kvs & -> & Ep & Eh)]].
  - rewrite Ep. exact Eh.
  - rewrite Eh. simpl Py.get_default. rewrite Ep. f_equal.
    assert (Es : forall a hkvs, rig = HRef a -> nth_error hb a = Some (ODict hkvs) ->
                 stored_rigId hb rig = r).
    { intros a hkvs -> Hn. unfold Heap.get_default, mbind, load, ret in Eh.
      rewrite (He _ _ Hn) in Eh. simpl. rewrite Hn.
      destruct (Heap.dict_lookup hkvs "rigId"); congruence. }
    inversion Hrig as [| | | | |a hkvs kvs' Hn HF]; subst.
    specialize (Es a hkvs eq_refl Hn).
    destruct pr; cbn [reflect]; try (rewrite Es; reflexivity);
      inversion Hr; reflexivity.
  - rewrite Eh. simpl Py.get_default. rewrite Ep. reflexivity.
Qed.

(** ** The resolver on the store against the resolver on values *)

(** On a rig held by the store, the resolver returns what the resolver on
    values returns, and the store it leaves is the store it found followed
    by the objects it created. *)
Lemma resolve_rig_name_refines (hb h : heap) (pv : value) (rig : hval) :
  extends hb h -> Heap.represents hb pv rig ->
  exists fresh,
    Heap.resolve_rig_name rig h
    = (reflect hb rig (pure_resolve_rig_name pv), h ++ fresh).
Proof.
  intros He Hrig. unfold Heap.resolve_rig_name, pure_resolve_rig_name.
  rewrite (mbind_ok _ _ _ _ _ (truthy_rep hb h pv rig He Hrig)).
  destruct (Py.truthy pv); cbn [negb].
  2:{ exists []. rewrite app_nil_r. reflexivity. }
  pose proof (build_candidates_refines hb h pv rig He Hrig) as C.
  unfold collects in C.
  destruct (pure_build_candidates pv) as [cs|e]; cbn [Py.bind].
  2:{ destruct C as (ex & C). rewrite (mbind_raise _ _ _ _ _ C).
      exists ex. reflexivity. }
  destruct C as (ex & items & rest & C & HF).
  rewrite (mbind_ok _ _ _ _ _ C).
  assert (E : Heap.iter (HRef (List.length (h ++ ex)))
                ((h ++ ex) ++ OList items :: rest)
              = (Ok items, (h ++ ex) ++ OList items :: rest)).
  { unfold Heap.iter, mbind, load. rewrite nth_error_fresh. reflexivity. }
  rewrite (mbind_ok _ _ _ _ _ E). clear E.
  pose proof (first_normalized_same_str cs items HF) as Hn.
  exists (ex ++ OList items :: rest). rewrite app_assoc.
  destruct (pure_first_normalized cs) as [[| | |n| |]|]; try contradiction.
  - rewrite Hn. reflexivity.
  - rewrite Hn. apply get_rigId_rep; [|exact Hrig].
    apply extends_app, extends_app, He.
Qed.

(** C7: on a rig held by the store, a call of the resolver changes none of
    the objects that exist when it is made (the store it leaves is the store
    it found, followed by the objects the call created), and its outcome is
    the same in every later state of the store in which those objects are
    still there; in particular a second call right after the first returns
    what the first returned. *)
Theorem resolve_rig_name_repeatable (h : heap) (rig : hval) (pv : value) :
  Heap.represents h pv rig ->
  (forall later, exists fresh,
      Heap.resolve_rig_name rig (h ++ later)
      = (reflect h rig (pure_resolve_rig_name pv), (h ++ later) ++ fresh))
  /\ (exists fresh1 fresh2,
         Heap.resolve_rig_name rig h
         = (reflect h rig (pure_resolve_rig_name pv), h ++ fresh1)
         /\ Heap.resolve_rig_name rig (h ++ fresh1)
            = (reflect h rig (pure_resolve_rig_name pv), (h ++ fresh1) ++ fresh2)).
Proof.
  intros Hrig.
  assert (Hl : forall later, exists fresh,
             Heap.resolve_rig_name rig (h ++ later)
             = (reflect h rig (pure_resolve_rig_name pv), (h ++ later) ++ fresh)).
  { intros later.
    exact (resolve_rig_name_refines h (h ++ later) pv rig
             (extends_prefix _ _) Hrig). }
  split; [exact Hl|].
  destruct (Hl []) as [fresh1 E1]. rewrite app_nil_r in E1.
  destruct (Hl fresh1) as [fresh2 E2].
  exists fresh1, fresh2. split; assumption.
Qed.

Lemma sample_heap_represents :
  Heap.represents sample_heap sample_heap_rig (HRef 1).
Proof.
  apply (rep_Dict sample_heap 1
           [("name", HStr (u "UNMANAGED")); ("metadata", HRef 0);
            ("rigId", HStr (u "abc123"))]); [reflexivity|].
  repeat constructor.
  apply (rep_Dict sample_heap 0 [("displayName", HStr (u "Worker7"))]);
    [reflexivity|].
  repeat constructor.
Qed.

Lemma resolve_rig_name_repeatable_witness :
  exists fresh1 fresh2,
    Heap.resolve_rig_name (HRef 1) sample_heap
    = (Ok (HStr (u "Worker7")), sample_heap ++ fresh1)
    /\ Heap.resolve_rig_name (HRef 1) (sample_heap ++ fresh1)
       = (Ok (HStr (u "Worker7")), (sample_heap ++ fresh1) ++ fresh2).
Proof.
  exact (proj2 (resolve_rig_name_repeatable sample_heap (HRef 1) sample_heap_rig
                  sample_heap_represents)).
Defined.

(** The run on the sample store: the two objects it held are untouched, and
    the list of candidates is among the seven objects the call created. *)
Example resolve_rig_name_sample_run :
  Heap.resolve_rig_name (HRef 1) sample_heap
  = (Ok (HStr (u "Worker7")),
     sample_heap
     ++ [ODict []; ODict []; ODict [];
         OList (HStr (u "UNMANAGED") :: repeat HNone 7
                ++ HStr (u "Worker7") :: repeat HNone 14);
         OList []; OList []; OList []]).
Proof. reflexivity. Qed.

End HeapFacts.
